(** * AdaptCalc: the versioned self-replacement subsystem

    A shallow embedding of the backup / overwrite / revert functions of
    [adaptcalc.py] and [revert_tool.py], and the properties of the
    specification that hold (or fail) on them.

    Conventions of the embedding.
    - A Python [str] is a [string]; its characters are the code points
      below 256, where the class [\d] of [re] is exactly [0]..[9] and
      [str.isspace] is the set listed in [is_space].
    - A file holds the characters that UTF-8 decoding of its bytes
      yields, before any newline translation; as UTF-8 is injective, two
      files are byte-identical exactly when these contents are equal.  A
      file whose bytes do not decode has [decodable = false].
    - Files are opened in text mode with the default [newline=None]:
      reading translates ["\r\n"] and ["\r"] to ["\n"]; writing stores the
      text as it is ([os.linesep] is ["\n"], the POSIX value, which
      [os.execv] as used here presupposes).
    - The base name of the script is spliced into the pattern of the
      backups as it is; the embedding gives the pattern its meaning for
      base names without a character that [re] treats specially
      ([Re.plain]), and the theorems about the program assume such a
      name.
    - Python integers are unbounded: version numbers are [N]. *)

From Stdlib Require Import String Ascii List Bool Arith NArith ZArith Lia.
From Stdlib Require Import Permutation Sorted.
From Stdlib Require Import Decimal DecimalString DecimalN.
Import ListNotations.
Open Scope string_scope.

(* ================================================================== *)
(** * Python strings *)

Module Str.

Definition LF : ascii := "010"%char.
Definition CR : ascii := "013"%char.

(** [c in s] *)
Fixpoint mem (c : ascii) (s : string) : bool :=
  match s with
  | EmptyString => false
  | String a s' => Ascii.eqb a c || mem c s'
  end.

Fixpoint all (P : ascii -> bool) (s : string) : bool :=
  match s with
  | EmptyString => true
  | String a s' => P a && all P s'
  end.

(** The ASCII decimal digits: what [\d] matches below code point 256. *)
Definition is_digit (c : ascii) : bool :=
  match c with
  | "0" | "1" | "2" | "3" | "4" | "5" | "6" | "7" | "8" | "9" => true
  | _ => false
  end%char.

(** [str.isspace] below code point 256. *)
Definition is_space (c : ascii) : bool :=
  match c with
  | "009" | "010" | "011" | "012" | "013"
  | "028" | "029" | "030" | "031" | " " | "133" | "160" => true
  | _ => false
  end%char.

Fixpoint lstrip (s : string) : string :=
  match s with
  | EmptyString => EmptyString
  | String a s' => if is_space a then lstrip s' else s
  end.

Fixpoint rstrip (s : string) : string :=
  match s with
  | EmptyString => EmptyString
  | String a s' =>
      match rstrip s' with
      | EmptyString => if is_space a then EmptyString else String a EmptyString
      | r => String a r
      end
  end.

(** [s.strip()] *)
Definition strip (s : string) : string := rstrip (lstrip s).

(** [s.replace("```", "")]: occurrences are removed left to right, without
    rescanning what a removal brings together. *)
Fixpoint remove_fences (s : string) : string :=
  match s with
  | String "`" (String "`" (String "`" s')) => remove_fences s'
  | String a s' => String a (remove_fences s')
  | EmptyString => EmptyString
  end.

(** What [os.path.basename] returns: the part after the last ["/"]. *)
Fixpoint after_last (c : ascii) (s : string) : string :=
  match s with
  | EmptyString => EmptyString
  | String a s' =>
      if mem c s' then after_last c s'
      else if Ascii.eqb a c then s' else s
  end.

(** [s.rsplit(c, 1)[0]]: the part before the last [c] (all of [s] when [c]
    does not occur). *)
Fixpoint rsplit1_head (c : ascii) (s : string) : string :=
  match s with
  | EmptyString => EmptyString
  | String a s' =>
      if mem c s' then String a (rsplit1_head c s')
      else if Ascii.eqb a c then EmptyString else s
  end.

(** Text-mode reading with universal newlines. *)
Fixpoint universal_newlines (s : string) : string :=
  match s with
  | EmptyString => EmptyString
  | String a s' =>
      if Ascii.eqb a CR then
        match s' with
        | String b s'' =>
            if Ascii.eqb b LF then String LF (universal_newlines s'')
            else String LF (universal_newlines s')
        | EmptyString => String LF EmptyString
        end
      else String a (universal_newlines s')
  end.

(** The last character, if there is one. *)
Fixpoint last_char (s : string) : option ascii :=
  match s with
  | EmptyString => None
  | String a EmptyString => Some a
  | String _ s' => last_char s'
  end.

(** [str(n)] for a non-negative integer. *)
Definition of_int (n : N) : string := NilZero.string_of_uint (N.to_uint n).

(** [int(s)] on a string of decimal digits, the only strings the group
    [(\d+)] can hold; Python raises [ValueError] on the others. *)
Definition to_int (s : string) : N :=
  match NilEmpty.uint_of_string s with
  | Some d => N.of_uint d
  | None => 0%N
  end.

(** The decimal digit of value [n mod 10]. *)
Definition digit_char (n : N) : ascii := ascii_of_N (48 + n mod 10).

(** A field printed on two columns, as [%m], [%d], [%H], [%M], [%S] print
    theirs (all are below 100). *)
Definition two_digits (n : N) : string :=
  String (digit_char (n / 10)) (String (digit_char n) EmptyString).

(** The first character, if there is one. *)
Definition first_char (s : string) : option ascii :=
  match s with
  | EmptyString => None
  | String a _ => Some a
  end.

(** Whether a character is there and is white space. *)
Definition is_space_char (c : option ascii) : bool :=
  match c with
  | Some a => is_space a
  | None => false
  end.

(** [s.startswith("```")] *)
Definition fence_at (s : string) : bool :=
  match s with
  | String a (String b (String c _)) =>
      Ascii.eqb a "`" && Ascii.eqb b "`" && Ascii.eqb c "`"
  | _ => false
  end.

(** What follows the first three characters. *)
Definition drop3 (s : string) : string :=
  match s with
  | String _ (String _ (String _ s')) => s'
  | _ => EmptyString
  end.

(** ["```" in s] *)
Fixpoint has_fence (s : string) : bool :=
  match s with
  | String "`" (String "`" (String "`" _)) => true
  | String _ s' => has_fence s'
  | EmptyString => false
  end.

End Str.

(* ================================================================== *)
(** * The fragment of [re] the program uses *)

Module Re.

(** One item of a pattern.  Both patterns of the program are sequences of
    such items. *)
Inductive item : Type :=
| Chr (c : ascii)            (** an ordinary character, or an escaped one *)
| DigitN (n : nat)           (** [\d{n}] *)
| DigitPlus (capture : bool) (** [\d+], or the group [(\d+)] *)
| Bol                        (** [^] *)
| Eol.                       (** [$] *)

Definition pattern := list item.

(** [n] digits at the head of [s], and what follows them. *)
Fixpoint take_digits (n : nat) (s : string) : option string :=
  match n with
  | O => Some s
  | S n' =>
      match s with
      | String a s' => if Str.is_digit a then take_digits n' s' else None
      | EmptyString => None
      end
  end.

(** Where [$] matches without [re.MULTILINE]: at the end of the string and
    just before a newline that ends it. *)
Definition at_end (s : string) : bool :=
  match s with
  | EmptyString => true
  | String a EmptyString => Ascii.eqb a Str.LF
  | _ => false
  end.

Section Greedy.
Variable k : nat -> string -> option (list string).

(** [\d+] followed by the rest of the pattern, [k]: one digit, then as
    many more as possible, giving digits back one at a time while the
    rest fails.  Returns the digits consumed and the groups of [k]. *)
Fixpoint digits_plus (pos : nat) (s : string) {struct s}
  : option (string * list string) :=
  match s with
  | String a s' =>
      if Str.is_digit a then
        match digits_plus (S pos) s' with
        | Some (g, gs) => Some (String a g, gs)
        | None =>
            match k (S pos) s' with
            | Some gs => Some (String a EmptyString, gs)
            | None => None
            end
        end
      else None
  | EmptyString => None
  end.
End Greedy.

(** The pattern [p] matched at position [pos], where [s] is what remains
    of the subject: [Some groups] on a match. *)
Fixpoint match_at (p : pattern) (pos : nat) (s : string) {struct p}
  : option (list string) :=
  match p with
  | [] => Some []
  | Chr c :: p' =>
      match s with
      | String a s' => if Ascii.eqb a c then match_at p' (S pos) s' else None
      | EmptyString => None
      end
  | DigitN n :: p' =>
      match take_digits n s with
      | Some rest => match_at p' (pos + n) rest
      | None => None
      end
  | DigitPlus capture :: p' =>
      match digits_plus (match_at p') pos s with
      | Some (g, gs) => Some (if capture then g :: gs else gs)
      | None => None
      end
  | Bol :: p' => if Nat.eqb pos 0 then match_at p' pos s else None
  | Eol :: p' => if at_end s then match_at p' pos s else None
  end.

(** [pattern.match(s)] *)
Definition re_match (p : pattern) (s : string) : option (list string) :=
  match_at p 0 s.

Fixpoint search_from (p : pattern) (pos : nat) (s : string) {struct s}
  : option (list string) :=
  match match_at p pos s with
  | Some gs => Some gs
  | None =>
      match s with
      | String _ s' => search_from p (S pos) s'
      | EmptyString => None
      end
  end.

(** [re.search(p, s)]: the leftmost match. *)
Definition re_search (p : pattern) (s : string) : option (list string) :=
  search_from p 0 s.

(** The items of a run of ordinary characters. *)
Definition lits (s : string) : pattern := map Chr (list_ascii_of_string s).

(** The characters [re] gives a meaning of their own. *)
Definition is_special (c : ascii) : bool :=
  match c with
  | "." | "^" | "$" | "*" | "+" | "?" | "{" | "}"
  | "[" | "]" | "\" | "|" | "(" | ")" => true
  | _ => false
  end%char.

(** A string that stands for itself when it is spliced into a pattern. *)
Definition plain (s : string) : bool := Str.all (fun c => negb (is_special c)) s.

End Re.

(* ================================================================== *)
(** * The clock *)

(** A [datetime.datetime] value. *)
Record datetime : Type := {
  year : N; month : N; day : N; hour : N; minute : N; second : N
}.

(** [t.strftime("%Y%m%d_%H%M%S")].  [%Y] prints the year in plain decimal
    (the C library does not pad it), the other fields on two columns. *)
Definition strftime (t : datetime) : string :=
  Str.of_int (year t) ++ Str.two_digits (month t) ++ Str.two_digits (day t)
  ++ "_" ++ Str.two_digits (hour t) ++ Str.two_digits (minute t)
  ++ Str.two_digits (second t).

(** The years [%Y] prints on four columns. *)
Definition four_digit_year (t : datetime) : bool :=
  ((1000 <=? year t) && (year t <=? 9999))%N.

(** What the clock says during one call: [datetime.datetime.now()], and
    the modification time the file system stamps on a file written then. *)
Record instant : Type := { wall : datetime; stamp : Z }.

(* ================================================================== *)
(** * The file system *)

Module FS.

Record file : Type := {
  content : string;   (** the decoded characters on disk *)
  mtime : Z;          (** [os.path.getmtime] *)
  readable : bool;    (** [open(p, 'r')] is permitted *)
  decodable : bool;   (** the bytes are valid UTF-8: [read()] succeeds *)
  writable : bool     (** [open(p, 'w')] is permitted *)
}.

(** The files by path, in the order in which the directory enumerates
    them, and whether new files may be created.  A file of the current
    directory is keyed by its bare name, any other by its absolute
    path. *)
Record t : Type := {
  entries : list (string * file);
  creatable : bool
}.

Inductive error : Type :=
| FileNotFoundError
| PermissionError
| UnicodeDecodeError
| ExecError.  (** whatever [OSError] a failing [os.execv] raises *)

Fixpoint assoc (p : string) (l : list (string * file)) : option file :=
  match l with
  | [] => None
  | (q, f) :: l' => if String.eqb q p then Some f else assoc p l'
  end.

Definition lookup (fs : t) (p : string) : option file := assoc p (entries fs).

(** [os.path.exists(p)] *)
Definition exists_ (fs : t) (p : string) : bool :=
  match lookup fs p with Some _ => true | None => false end.

(** [os.listdir('.')]: the bare names, in enumeration order. *)
Definition listdir (fs : t) : list string :=
  filter (fun p => negb (Str.mem "/" p)) (map fst (entries fs)).

(** [os.path.getmtime(p)], for a path that exists. *)
Definition getmtime (fs : t) (p : string) : Z :=
  match lookup fs p with Some f => mtime f | None => 0%Z end.

(** The file at [p] replaced by [g] of it, in place. *)
Definition update (p : string) (g : file -> file) (l : list (string * file))
  : list (string * file) :=
  map (fun e => if String.eqb (fst e) p then (fst e, g (snd e)) else e) l.

Definition set_content (s : string) (now : Z) (f : file) : file :=
  {| content := s; mtime := now; readable := readable f;
     decodable := true; writable := writable f |}.

Definition new_file (now : Z) : file :=
  {| content := EmptyString; mtime := now; readable := true;
     decodable := true; writable := true |}.

(** [open(p, 'r', encoding='utf-8')] *)
Definition open_r (fs : t) (p : string) : option error :=
  match lookup fs p with
  | None => Some FileNotFoundError
  | Some f => if readable f then None else Some PermissionError
  end.

(** [open(p, 'w', encoding='utf-8')]: an existing file is truncated, a
    missing one is created.  The model puts a created file last; where
    [os.listdir] then enumerates it is the choice of the file system, and
    what is stated of the program below does not depend on the place. *)
Definition open_w (fs : t) (now : Z) (p : string) : error + t :=
  match lookup fs p with
  | Some f =>
      if writable f then
        inr {| entries := update p (set_content EmptyString now) (entries fs);
               creatable := creatable fs |}
      else inl PermissionError
  | None =>
      if creatable fs then
        inr {| entries := entries fs ++ [(p, new_file now)];
               creatable := creatable fs |}
      else inl PermissionError
  end.

(** [f.read()] on a file opened for reading. *)
Definition read (fs : t) (p : string) : error + string :=
  match lookup fs p with
  | Some f =>
      if decodable f then inr (Str.universal_newlines (content f))
      else inl UnicodeDecodeError
  | None => inl FileNotFoundError
  end.

(** [f.write(text)] on a file opened for writing, and its close. *)
Definition write (fs : t) (now : Z) (p : string) (text : string) : t :=
  {| entries := update p (set_content text now) (entries fs);
     creatable := creatable fs |}.

(** The statement the three copies of the program share,
[[
    with open(src, 'r', encoding='utf-8') as a, open(dst, 'w', encoding='utf-8') as b:
        b.write(a.read())
]]
    with the exception it raises, if any.  The source is opened first;
    the destination is truncated or created before the source is read. *)
Definition copy_text (fs : t) (now : Z) (src dst : string) : t * option error :=
  match open_r fs src with
  | Some e => (fs, Some e)
  | None =>
      match open_w fs now dst with
      | inl e => (fs, Some e)
      | inr fs1 =>
          match read fs1 src with
          | inl e => (fs1, Some e)
          | inr text => (write fs1 now dst text, None)
          end
      end
  end.

(** [with open(p, 'w', encoding='utf-8') as f: f.write(text)] *)
Definition write_text (fs : t) (now : Z) (p : string) (text : string)
  : t * option error :=
  match open_w fs now p with
  | inl e => (fs, Some e)
  | inr fs1 => (write fs1 now p text, None)
  end.

End FS.

(* ================================================================== *)
(** * Sorting *)

Section Sort.
Variable key : string -> Z.

Fixpoint insert_by_key (x : string) (l : list string) : list string :=
  match l with
  | [] => [x]
  | y :: l' => if (key x <=? key y)%Z then x :: l else y :: insert_by_key x l'
  end.

(** [l.sort(key=key)]: ascending, and stable (elements with equal keys
    keep their order), which determines the result. *)
Fixpoint sort_by_key (l : list string) : list string :=
  match l with
  | [] => []
  | x :: l' => insert_by_key x (sort_by_key l')
  end.
End Sort.

(** Ascending order of the keys. *)
Definition key_le (key : string -> Z) (a b : string) : Prop :=
  (key a <= key b)%Z.

(** What the program shows or does at the end of an operation. *)
Inductive outcome : Type :=
| Restarted                    (** [os.execv] replaced the process *)
| Done                         (** the success message of the revert tool *)
| ErrorShown (e : FS.error)    (** the exception caught, in a message box *)
| EmptyScriptShown.            (** "Received empty or invalid script from model." *)

(* ================================================================== *)
(** * adaptcalc.py *)

Module AdaptCalc.

(** [get_script_name()], where [script_path] is
    [os.path.abspath(sys.argv[0])]. *)
Definition get_script_name (script_path : string) : string :=
  let base := Str.after_last "/" script_path in
  if Str.mem "." base then Str.rsplit1_head "." base else base.

(** [re.compile(rf"^{script_base}_\d{{8}}_\d{{6}}_v\d+\.bak$")], for a
    [script_base] that is [Re.plain]. *)
Definition backup_pattern (script_base : string) : Re.pattern :=
  ([Re.Bol] ++ Re.lits script_base ++ Re.lits "_" ++ [Re.DigitN 8]
   ++ Re.lits "_" ++ [Re.DigitN 6] ++ Re.lits "_v" ++ [Re.DigitPlus false]
   ++ [Re.Chr "."] ++ Re.lits "bak" ++ [Re.Eol])%list.

(** [r"_v(\d+)\.bak$"] *)
Definition version_pattern : Re.pattern :=
  (Re.lits "_v" ++ [Re.DigitPlus true] ++ [Re.Chr "."] ++ Re.lits "bak"
   ++ [Re.Eol])%list.

Definition is_match (m : option (list string)) : bool :=
  match m with Some _ => true | None => false end.

Definition list_backup_files (script_path : string) (fs : FS.t) : list string :=
  let script_base := get_script_name script_path in
  let pattern := backup_pattern script_base in
  let files := filter (fun f => is_match (Re.re_match pattern f)) (FS.listdir fs) in
  sort_by_key (FS.getmtime fs) files.

(** One turn of the loop of [get_next_backup_filename]. *)
Definition bump (iteration : N) (b : string) : N :=
  match Re.re_search version_pattern b with
  | Some (g :: _) =>
      let val := Str.to_int g in
      if (iteration <? val)%N then val else iteration
  | _ => iteration
  end.

(** The value of [iteration] when [get_next_backup_filename] formats the
    name. *)
Definition next_iteration (script_path : string) (fs : FS.t) : N :=
  (fold_left bump (list_backup_files script_path fs) 0 + 1)%N.

Definition get_next_backup_filename (script_path : string) (fs : FS.t)
  (now : instant) : string :=
  let script_base := get_script_name script_path in
  let now_str := strftime (wall now) in
  let iteration := next_iteration script_path fs in
  script_base ++ "_" ++ now_str ++ "_v" ++ Str.of_int iteration ++ ".bak".

(** [backup_script_custom(file_path)]: the file system after the call,
    the name returned, and the exception the [except] clause turned into
    the printed warning, if any. *)
Definition backup_script_custom (script_path : string) (fs : FS.t)
  (now : instant) (file_path : string) : FS.t * string * option FS.error :=
  let backup_path := get_next_backup_filename script_path fs now in
  let (fs', warning) := FS.copy_text fs (stamp now) file_path backup_path in
  (fs', backup_path, warning).

(** [os.execv(sys.executable, ...)] after a step that raised nothing. *)
Definition restart (exec_ok : bool) : outcome :=
  if exec_ok then Restarted else ErrorShown FS.ExecError.

(** The [try] block of [overwrite_self]. *)
Definition overwrite_step (script_path : string) (exec_ok : bool) (fs : FS.t)
  (now : instant) (new_code : string) : FS.t * outcome :=
  match FS.write_text fs (stamp now) script_path new_code with
  | (fs', Some e) => (fs', ErrorShown e)
  | (fs', None) => (fs', restart exec_ok)
  end.

Definition overwrite_self (script_path : string) (exec_ok : bool) (fs : FS.t)
  (now : instant) (new_code : string) : FS.t * outcome :=
  let '(fs1, _, _) := backup_script_custom script_path fs now script_path in
  overwrite_step script_path exec_ok fs1 now new_code.

(** The [try] block of [revert_to_backup]. *)
Definition restore_step (script_path : string) (exec_ok : bool) (fs : FS.t)
  (now : instant) (backup_filename : string) : FS.t * outcome :=
  match FS.copy_text fs (stamp now) backup_filename script_path with
  | (fs', Some e) => (fs', ErrorShown e)
  | (fs', None) => (fs', restart exec_ok)
  end.

Definition revert_to_backup (script_path : string) (exec_ok : bool) (fs : FS.t)
  (now : instant) (backup_filename : string) : FS.t * outcome :=
  let '(fs1, _, _) := backup_script_custom script_path fs now script_path in
  restore_step script_path exec_ok fs1 now backup_filename.

Definition sanitize_script_response (script_code : string) : string :=
  Str.strip (Str.remove_fences script_code).

(** [CalculatorWindow.customize_entire_script] from the point where the
    model has answered [raw_response]. *)
Definition customize_entire_script (script_path : string) (exec_ok : bool)
  (fs : FS.t) (now : instant) (raw_response : string) : FS.t * outcome :=
  let new_code := sanitize_script_response raw_response in
  match Str.strip new_code with
  | EmptyString => (fs, EmptyScriptShown)
  | _ => overwrite_self script_path exec_ok fs now new_code
  end.

Definition API_KEY_FILENAME : string := "openai_api_key.txt".

(** [load_api_key()]: any exception of the read gives the empty key. *)
Definition load_api_key (fs : FS.t) : string :=
  if FS.exists_ fs API_KEY_FILENAME then
    match FS.open_r fs API_KEY_FILENAME with
    | Some _ => EmptyString
    | None =>
        match FS.read fs API_KEY_FILENAME with
        | inr text => Str.strip text
        | inl _ => EmptyString
        end
    end
  else EmptyString.

(** [save_api_key(key)]: the file system after the call, and the
    exception the [except] clause turned into the printed warning. *)
Definition save_api_key (fs : FS.t) (now : instant) (key : string)
  : FS.t * option FS.error :=
  FS.write_text fs (stamp now) API_KEY_FILENAME (Str.strip key).

(** How [CustomizeDialog.on_accept] ends. *)
Inductive dialog_result : Type :=
| Accepted (prompt_text api_key selected_model : string)
| PromptWarning      (** "Please enter a prompt." *)
| KeyWarning.        (** "Please enter your OpenAI API key." *)

(** [CustomizeDialog.on_accept], on the texts of the prompt box, of the
    key line and of the model box. *)
Definition on_accept (edit_prompt edit_key combo_model : string) : dialog_result :=
  let prompt_text := Str.strip edit_prompt in
  let api_key := Str.strip edit_key in
  let selected_model := combo_model in
  match prompt_text with
  | EmptyString => PromptWarning
  | _ =>
      match api_key with
      | EmptyString => KeyWarning
      | _ => Accepted prompt_text api_key selected_model
      end
  end.

End AdaptCalc.

(* ================================================================== *)
(** * revert_tool.py *)

Module RevertTool.

Definition get_script_name : string := "adaptcalc".

Definition list_backup_files (fs : FS.t) : list string :=
  let script_base := get_script_name in
  let pattern := AdaptCalc.backup_pattern script_base in
  let files :=
    filter (fun f => AdaptCalc.is_match (Re.re_match pattern f)) (FS.listdir fs) in
  sort_by_key (FS.getmtime fs) files.

Definition revert_backup (fs : FS.t) (now : instant) (backup_filename : string)
  : FS.t * outcome :=
  let script_file := get_script_name ++ ".py" in
  match FS.copy_text fs (stamp now) backup_filename script_file with
  | (fs', Some e) => (fs', ErrorShown e)
  | (fs', None) => (fs', Done)
  end.

End RevertTool.

(* ================================================================== *)
(** * The naming scheme, as the specification words it *)

Module NamingScheme.

(** [backupName(baseName, timestamp, version)] *)
Definition backupName (baseName : string) (timestamp : datetime) (version : N)
  : string :=
  baseName ++ "_" ++ strftime timestamp ++ "_v" ++ Str.of_int version ++ ".bak".

(** The shape [{baseName}_{8 digits}_{6 digits}_v{one or more digits}.bak]. *)
Definition conforms (baseName candidateName : string) : Prop :=
  exists d t v : string,
    candidateName = baseName ++ "_" ++ d ++ "_" ++ t ++ "_v" ++ v ++ ".bak"
    /\ String.length d = 8 /\ Str.all Str.is_digit d = true
    /\ String.length t = 6 /\ Str.all Str.is_digit t = true
    /\ v <> EmptyString /\ Str.all Str.is_digit v = true.

Fixpoint leading_digits (s : string) : string :=
  match s with
  | String a s' =>
      if Str.is_digit a then String a (leading_digits s') else EmptyString
  | EmptyString => EmptyString
  end.

Definition drop_first (s : string) : string :=
  match s with
  | String _ s' => s'
  | EmptyString => EmptyString
  end.

(** [extractVersion(candidateName)]: the number of the trailing
    [v<digits>] field, the field after the last underscore. *)
Definition extractVersion (candidateName : string) : N :=
  Str.to_int (leading_digits (drop_first (Str.after_last "_" candidateName))).

(** The maximum of a sequence of version numbers, [0] for the empty one. *)
Definition max_version (vs : list N) : N := fold_right N.max 0%N vs.

End NamingScheme.

(** The end of both patterns, [\.bak$]. *)
Definition dot_bak_eol : Re.pattern :=
  [Re.Chr "."; Re.Chr "b"; Re.Chr "a"; Re.Chr "k"; Re.Eol].

(** The part the two patterns share, [_v\d+\.bak$], with or without the
    group. *)
Definition version_tail (capture : bool) : Re.pattern :=
  Re.Chr "_" :: Re.Chr "v" :: Re.DigitPlus capture :: dot_bak_eol.

(** Nothing, or the single newline that [$] lets a subject end with. *)
Definition end_or_newline (nl : string) : Prop :=
  nl = EmptyString \/ nl = String Str.LF EmptyString.

(** The names [backup_pattern] lets through: those of the shape, and
    those of the shape followed by one newline. *)
Definition accepted (script_base f : string) : Prop :=
  exists f' nl : string,
    f = f' ++ nl /\ NamingScheme.conforms script_base f' /\ end_or_newline nl.

(** The entries named in [gone] removed by hand. *)
Definition delete_files (gone : list string) (fs : FS.t) : FS.t :=
  {| FS.entries :=
       filter (fun e => negb (existsb (String.eqb (fst e)) gone)) (FS.entries fs);
     FS.creatable := FS.creatable fs |}.


(** The content of the file at [p], if there is one. *)
Definition content_at (fs : FS.t) (p : string) : option string :=
  option_map FS.content (FS.lookup fs p).

(* ================================================================== *)
(** * Concrete file systems *)

Module Sample.

Definition file_of (text : string) (modified : Z) : FS.file :=
  {| FS.content := text; FS.mtime := modified; FS.readable := true;
     FS.decodable := true; FS.writable := true |}.

(** 6 March 2025, 15:30:12. *)
Definition now0 : instant :=
  {| wall := {| year := 2025; month := 3; day := 6;
                hour := 15; minute := 30; second := 12 |};
     stamp := 100 |}.

Definition later : instant :=
  {| wall := {| year := 2025; month := 3; day := 6;
                hour := 15; minute := 30; second := 12 |};
     stamp := 101 |}.

(** The script alone, in a directory that takes new files. *)
Definition fs_script : FS.t :=
  {| FS.entries := [("calc.py", file_of "old" 1)]; FS.creatable := true |}.

(** The script alone, in a directory that is not writable. *)
Definition fs_locked : FS.t :=
  {| FS.entries := [("calc.py", file_of "old" 1)]; FS.creatable := false |}.

(** Two backups written within one tick of the file system's clock,
    which the directory enumerates newest first. *)
Definition fs_ties : FS.t :=
  {| FS.entries := [("calc.py", file_of "old" 1);
                    ("calc_20250101_110000_v2.bak", file_of "second" 5);
                    ("calc_20250101_100000_v1.bak", file_of "first" 5)];
     FS.creatable := true |}.

(** Two backups, and a third name that is no backup. *)
Definition fs_two : FS.t :=
  {| FS.entries := [("calc.py", file_of "old" 1);
                    ("calc_20250101_100000_v1.bak", file_of "first" 5);
                    ("notes.txt", file_of "n" 6);
                    ("calc_20250101_110000_v2.bak", file_of "second" 7)];
     FS.creatable := true |}.


(** A line of text that ends in carriage return and line feed. *)
Definition crlf_text : string :=
  String "a" (String Str.CR (String Str.LF (String "b" EmptyString))).

Definition lf_text : string :=
  String "a" (String Str.LF (String "b" EmptyString)).

(** A script with the line endings of another platform. *)
Definition fs_crlf : FS.t :=
  {| FS.entries := [("calc.py", file_of crlf_text 1)]; FS.creatable := true |}.

(** The directory of the revert tool: the script and one backup. *)
Definition fs_tool : FS.t :=
  {| FS.entries := [("adaptcalc.py", file_of "current" 9);
                    ("adaptcalc_20250101_100000_v1.bak", file_of "older" 5)];
     FS.creatable := true |}.

(** Whether some file holds [text]. *)
Definition holds (fs : FS.t) (text : string) : bool :=
  existsb (fun e => String.eqb (FS.content (snd e)) text) (FS.entries fs).

(** A well-shaped name with a newline after it. *)
Definition name_with_newline : string :=
  "calc_20250101_100000_v1.bak" ++ String Str.LF EmptyString.

(** The script, and a stray file whose name is a backup name followed by
    a newline: no name here has the shape of the naming scheme. *)
Definition fs_stray : FS.t :=
  {| FS.entries := [("calc.py", file_of "old" 1);
                    (name_with_newline, file_of "stray" 2)];
     FS.creatable := true |}.

End Sample.

(* ================================================================== *)
(** * Facts about strings *)

Section StringFacts.
  Import Str.

Lemma append_nil_r (s : string) : s ++ "" = s.
Proof. induction s; simpl; congruence. Qed.

Lemma append_assoc (s1 s2 s3 : string) : (s1 ++ s2) ++ s3 = s1 ++ (s2 ++ s3).
Proof. induction s1; simpl; congruence. Qed.

Lemma append_inv_head (s x y : string) : s ++ x = s ++ y -> x = y.
Proof. induction s; simpl; intros H; [assumption | injection H; auto]. Qed.

Lemma length_append (s1 s2 : string) :
  String.length (s1 ++ s2) = String.length s1 + String.length s2.
Proof. induction s1; simpl; congruence. Qed.

Lemma mem_append (c : ascii) (s1 s2 : string) :
  mem c (s1 ++ s2) = mem c s1 || mem c s2.
Proof.
  induction s1 as [|a s1 IH]; simpl; [reflexivity|].
  now rewrite IH, orb_assoc.
Qed.

Lemma all_append (P : ascii -> bool) (s1 s2 : string) :
  all P (s1 ++ s2) = all P s1 && all P s2.
Proof.
  induction s1 as [|a s1 IH]; simpl; [reflexivity|].
  now rewrite IH, andb_assoc.
Qed.

Lemma all_not_mem (P : ascii -> bool) (c : ascii) (s : string) :
  all P s = true -> P c = false -> mem c s = false.
Proof.
  intros Hs Hc. induction s as [|a s IH]; simpl in *; [reflexivity|].
  apply andb_true_iff in Hs as [Ha Hs]. rewrite (IH Hs), orb_false_r.
  apply Ascii.eqb_neq. intros ->. congruence.
Qed.

Lemma after_last_no_mem (c : ascii) (s : string) : mem c (after_last c s) = false.
Proof.
  induction s as [|a s IH]; simpl; [reflexivity|].
  destruct (mem c s) eqn:E; [assumption|].
  destruct (Ascii.eqb a c) eqn:Ea; [assumption|].
  simpl. now rewrite Ea, E.
Qed.

Lemma after_last_id (c : ascii) (s : string) :
  mem c s = false -> after_last c s = s.
Proof.
  destruct s as [|a s]; simpl; [reflexivity|].
  intros H. apply orb_false_iff in H as [Ha Hs]. now rewrite Hs, Ha.
Qed.

Lemma after_last_append (c : ascii) (x r : string) :
  mem c r = false -> after_last c (x ++ String c r) = r.
Proof.
  intros Hr. induction x as [|a x IH]; simpl.
  - now rewrite Hr, Ascii.eqb_refl.
  - rewrite mem_append. simpl. rewrite Ascii.eqb_refl, orb_true_r. exact IH.
Qed.

Lemma rsplit1_head_split (c : ascii) (s : string) :
  mem c s = true -> exists ext, s = rsplit1_head c s ++ String c ext.
Proof.
  induction s as [|a s IH]; simpl; [discriminate|].
  destruct (mem c s) eqn:E.
  - intros _. destruct (IH eq_refl) as [ext Hext]. exists ext.
    simpl. now rewrite <- Hext.
  - rewrite orb_false_r. intros Ha. rewrite Ha.
    apply Ascii.eqb_eq in Ha. subst a. now exists s.
Qed.

Lemma universal_newlines_no_cr (s : string) :
  mem CR (universal_newlines s) = false.
Proof.
  assert (H : forall n s, String.length s <= n ->
                     mem CR (universal_newlines s) = false).
  { clear s. induction n as [|n IH]; intros [|a s] Hn; simpl in *;
      try reflexivity; try lia.
    destruct (Ascii.eqb a CR) eqn:Ea.
    - assert (Hlf : forall x, mem CR (String LF x) = mem CR x) by reflexivity.
      destruct s as [|b s]; [reflexivity|].
      destruct (Ascii.eqb b LF); rewrite Hlf; apply IH; simpl in *; lia.
    - assert (Ha : forall x, mem CR (String a x) = mem CR x)
        by (intros x; simpl; now rewrite Ea).
      rewrite Ha. apply IH. lia. }
  now apply (H (String.length s)).
Qed.

Lemma universal_newlines_id (s : string) :
  mem CR s = false -> universal_newlines s = s.
Proof.
  induction s as [|a s IH]; simpl; [reflexivity|].
  intros H. apply orb_false_iff in H as [Ha Hs].
  rewrite Ha. now rewrite IH.
Qed.

Lemma universal_newlines_idem (s : string) :
  universal_newlines (universal_newlines s) = universal_newlines s.
Proof. apply universal_newlines_id, universal_newlines_no_cr. Qed.

End StringFacts.

(* ================================================================== *)
(** * Facts about decimal numerals and the clock *)

Section DecimalFacts.
  Import Str.

Lemma digit_char_is_digit (n : N) : is_digit (digit_char n) = true.
Proof.
  unfold digit_char.
  assert (H : (n mod 10 < 10)%N) by (apply N.mod_lt; discriminate).
  destruct (n mod 10)%N as [|p]; [reflexivity|].
  do 4 (try destruct p as [p|p|]); try reflexivity; lia.
Qed.

Lemma two_digits_all (n : N) : all is_digit (two_digits n) = true.
Proof. unfold two_digits. simpl. now rewrite !digit_char_is_digit. Qed.

Lemma two_digits_length (n : N) : String.length (two_digits n) = 2.
Proof. reflexivity. Qed.

Lemma string_of_uint_all (d : uint) :
  all is_digit (NilEmpty.string_of_uint d) = true.
Proof. induction d; simpl; auto. Qed.

Lemma of_int_nilempty (n : N) :
  of_int n = NilEmpty.string_of_uint (N.to_uint n).
Proof.
  unfold of_int, NilZero.string_of_uint.
  destruct n as [|p]; [reflexivity|].
  simpl. destruct (Pos.to_uint p) eqn:E; try reflexivity.
  exfalso. revert E. apply (DecimalPos.Unsigned.to_uint_nonnil p).
Qed.

Lemma of_int_all (n : N) : all is_digit (of_int n) = true.
Proof. rewrite of_int_nilempty. apply string_of_uint_all. Qed.

Lemma of_int_nonempty (n : N) : of_int n <> EmptyString.
Proof.
  unfold of_int, NilZero.string_of_uint.
  destruct (N.to_uint n); simpl; discriminate.
Qed.

Lemma to_int_of_int (n : N) : to_int (of_int n) = n.
Proof.
  unfold to_int. rewrite of_int_nilempty, NilEmpty.usu.
  apply DecimalN.Unsigned.of_to.
Qed.

Lemma of_int_year_length (y : N) :
  (1000 <= y <= 9999)%N -> String.length (of_int y) = 4.
Proof.
  intros Hy.
  assert (H : forallb (fun k => Nat.eqb (String.length (of_int (N.of_nat k))) 4)
                (seq (10 * 100) (90 * 100)) = true) by (vm_compute; reflexivity).
  rewrite forallb_forall in H.
  specialize (H (N.to_nat y)). rewrite N2Nat.id in H.
  apply Nat.eqb_eq, H, in_seq. lia.
Qed.

(** The shape of the stamp that goes into a backup name. *)
Lemma strftime_shape (t : datetime) :
  four_digit_year t = true ->
  exists d tm : string,
    strftime t = d ++ "_" ++ tm
    /\ String.length d = 8 /\ all is_digit d = true
    /\ String.length tm = 6 /\ all is_digit tm = true.
Proof.
  intros Hy. unfold four_digit_year in Hy.
  apply andb_true_iff in Hy as [H1 H2].
  apply N.leb_le in H1. apply N.leb_le in H2.
  exists (of_int (year t) ++ two_digits (month t) ++ two_digits (day t)),
         (two_digits (hour t) ++ two_digits (minute t) ++ two_digits (second t)).
  repeat split.
  - unfold strftime. now rewrite !append_assoc.
  - rewrite !length_append, of_int_year_length by lia. reflexivity.
  - now rewrite !all_append, of_int_all, !two_digits_all.
  - now rewrite !all_append, !two_digits_all.
Qed.

Lemma leading_digits_append (v r : string) :
  all is_digit v = true ->
  NamingScheme.leading_digits r = EmptyString ->
  NamingScheme.leading_digits (v ++ r) = v.
Proof.
  intros Hv Hr. induction v as [|a v IH]; simpl in *; [assumption|].
  apply andb_true_iff in Hv as [Ha Hv]. rewrite Ha. now rewrite IH.
Qed.

End DecimalFacts.

(* ================================================================== *)
(** * Facts about the matcher *)

Section MatcherFacts.
  Import Str Re.

Lemma take_digits_app (d r : string) :
  all is_digit d = true -> take_digits (String.length d) (d ++ r) = Some r.
Proof.
  induction d as [|a d IH]; simpl; [reflexivity|].
  intros H. apply andb_true_iff in H as [Ha Hd]. rewrite Ha. auto.
Qed.

Lemma take_digits_inv (n : nat) : forall x r : string,
  take_digits n x = Some r ->
  exists d, x = d ++ r /\ String.length d = n /\ all is_digit d = true.
Proof.
  induction n as [|n IH]; simpl; intros x r H.
  - injection H as ->. now exists EmptyString.
  - destruct x as [|a x]; [discriminate|].
    destruct (is_digit a) eqn:Ha; [|discriminate].
    destruct (IH _ _ H) as (d & -> & Hl & Hd).
    exists (String a d). simpl. now rewrite Ha, Hd, Hl.
Qed.

Lemma match_at_chr_inv (c : ascii) (p : pattern) (pos : nat) (x : string)
  (gs : list string) :
  match_at (Chr c :: p) pos x = Some gs ->
  exists x', x = String c x' /\ match_at p (S pos) x' = Some gs.
Proof.
  simpl. destruct x as [|a x]; [discriminate|].
  destruct (Ascii.eqb a c) eqn:E; [|discriminate].
  apply Ascii.eqb_eq in E. subst a. intros H. now exists x.
Qed.

Lemma match_at_chr_app (c : ascii) (p : pattern) (pos : nat) (x : string) :
  match_at (Chr c :: p) pos (String c x) = match_at p (S pos) x.
Proof. simpl. now rewrite Ascii.eqb_refl. Qed.

Lemma match_at_digits_inv (n : nat) (p : pattern) (pos : nat) (x : string)
  (gs : list string) :
  match_at (DigitN n :: p) pos x = Some gs ->
  exists d r, x = d ++ r /\ String.length d = n /\ all is_digit d = true
              /\ match_at p (pos + n) r = Some gs.
Proof.
  simpl. destruct (take_digits n x) as [r|] eqn:E; [|discriminate].
  apply take_digits_inv in E as (d & -> & Hl & Hd).
  intros H. now exists d, r.
Qed.

Lemma match_at_digits_app (p : pattern) (pos : nat) (d r : string) :
  all is_digit d = true ->
  match_at (DigitN (String.length d) :: p) pos (d ++ r)
  = match_at p (pos + String.length d) r.
Proof. intros Hd. simpl. now rewrite take_digits_app. Qed.

Lemma match_at_lits_app (s : string) (p : pattern) : forall (pos : nat) (r : string),
  match_at (lits s ++ p)%list pos (s ++ r) = match_at p (pos + String.length s) r.
Proof.
  induction s as [|a s IH]; intros pos r; simpl.
  - now rewrite Nat.add_0_r.
  - rewrite Ascii.eqb_refl. unfold lits in IH. rewrite IH. f_equal. lia.
Qed.

Lemma match_at_lits_inv (s : string) (p : pattern) :
  forall (pos : nat) (x : string) (gs : list string),
  match_at (lits s ++ p)%list pos x = Some gs ->
  exists r, x = s ++ r /\ match_at p (pos + String.length s) r = Some gs.
Proof.
  induction s as [|a s IH]; intros pos x gs H.
  - exists x. simpl in *. now rewrite Nat.add_0_r.
  - change (lits (String a s) ++ p)%list with (Chr a :: (lits s ++ p)%list) in H.
    apply match_at_chr_inv in H as (x' & -> & H).
    apply IH in H as (r & -> & H). exists r. split; [reflexivity|].
    simpl. rewrite <- H. f_equal. lia.
Qed.

Lemma at_end_iff (s : string) : at_end s = true <-> end_or_newline s.
Proof.
  unfold end_or_newline. destruct s as [|a [|b s]]; simpl.
  - intuition.
  - rewrite Ascii.eqb_eq. split; [intros ->; now right|].
    intros [H|H]; [discriminate|]. now injection H.
  - split; [discriminate|]. intros [H|H]; discriminate.
Qed.

Section GreedyFacts.
Variable k : nat -> string -> option (list string).

Lemma digits_plus_inv : forall (x : string) (pos : nat) (g : string)
  (gs : list string),
  digits_plus k pos x = Some (g, gs) ->
  exists r, x = g ++ r /\ g <> EmptyString /\ all is_digit g = true
            /\ k (pos + String.length g) r = Some gs.
Proof.
  induction x as [|a x IH]; simpl; intros pos g gs H; [discriminate|].
  destruct (is_digit a) eqn:Ha; [|discriminate].
  destruct (digits_plus k (S pos) x) as [[g' gs']|] eqn:E.
  - injection H as <- <-.
    destruct (IH _ _ _ E) as (r & -> & _ & Hd & Hk).
    exists r. simpl. rewrite Ha, Hd. repeat split; [discriminate|].
    rewrite <- Hk. f_equal. lia.
  - destruct (k (S pos) x) as [gs'|] eqn:Ek; [|discriminate].
    injection H as <- <-. exists x. simpl. rewrite Ha.
    repeat split; [discriminate|]. rewrite <- Ek. f_equal. lia.
Qed.

Lemma digits_plus_no_digit (pos : nat) (r : string) :
  NamingScheme.leading_digits r = EmptyString -> digits_plus k pos r = None.
Proof.
  destruct r as [|a r]; simpl; [reflexivity|].
  destruct (is_digit a); [discriminate | reflexivity].
Qed.

(** When the rest of the pattern cannot start on a digit, [\d+] takes
    the whole run of digits and never gives one back. *)
Hypothesis k_no_digit : forall pos a x,
  is_digit a = true -> k pos (String a x) = None.

Lemma digits_plus_exact : forall (g r : string) (pos : nat),
  all is_digit g = true -> g <> EmptyString ->
  NamingScheme.leading_digits r = EmptyString ->
  digits_plus k pos (g ++ r)
  = match k (pos + String.length g) r with
    | Some gs => Some (g, gs)
    | None => None
    end.
Proof.
  induction g as [|a g IH]; intros r pos Hg Hne Hr; [congruence|].
  simpl in Hg. apply andb_true_iff in Hg as [Ha Hg].
  simpl. rewrite Ha.
  replace (pos + S (String.length g)) with (S pos + String.length g) by lia.
  destruct g as [|b g].
  - simpl. rewrite (digits_plus_no_digit _ _ Hr).
    rewrite Nat.add_0_r. now destruct (k (S pos) r).
  - rewrite (IH r (S pos) Hg ltac:(discriminate) Hr).
    destruct (k (S pos + String.length (String b g)) r); [reflexivity|].
    simpl in Hg. apply andb_true_iff in Hg as [Hb _].
    simpl. now rewrite (k_no_digit _ _ _ Hb).
Qed.
End GreedyFacts.

Lemma dot_bak_eol_inv (pos : nat) (r : string) (gs : list string) :
  match_at dot_bak_eol pos r = Some gs ->
  exists nl, r = ".bak" ++ nl /\ end_or_newline nl /\ gs = [].
Proof.
  unfold dot_bak_eol. intros H.
  apply match_at_chr_inv in H as (r1 & -> & H).
  apply match_at_chr_inv in H as (r2 & -> & H).
  apply match_at_chr_inv in H as (r3 & -> & H).
  apply match_at_chr_inv in H as (nl & -> & H).
  simpl in H. destruct (at_end nl) eqn:E; [|discriminate].
  injection H as <-. exists nl. apply at_end_iff in E. now repeat split.
Qed.

Lemma dot_bak_eol_app (pos : nat) (nl : string) :
  end_or_newline nl -> match_at dot_bak_eol pos (".bak" ++ nl) = Some [].
Proof. intros [-> | ->]; reflexivity. Qed.

Lemma dot_bak_eol_no_digit (pos : nat) (a : ascii) (x : string) :
  is_digit a = true -> match_at dot_bak_eol pos (String a x) = None.
Proof.
  intros Ha. simpl. destruct (Ascii.eqb a ".") eqn:E; [|reflexivity].
  apply Ascii.eqb_eq in E. subst a. discriminate.
Qed.

Lemma version_tail_inv (capture : bool) (pos : nat) (x : string)
  (gs : list string) :
  match_at (version_tail capture) pos x = Some gs ->
  exists v nl, x = "_v" ++ v ++ ".bak" ++ nl
    /\ v <> EmptyString /\ all is_digit v = true /\ end_or_newline nl
    /\ gs = if capture then [v] else [].
Proof.
  unfold version_tail. intros H.
  apply match_at_chr_inv in H as (r1 & -> & H).
  apply match_at_chr_inv in H as (r2 & -> & H).
  cbn [match_at] in H.
  destruct (digits_plus (match_at dot_bak_eol) (S (S pos)) r2)
    as [[g gs']|] eqn:E; [|discriminate].
  injection H as <-.
  apply digits_plus_inv in E as (r & -> & Hne & Hd & Hk).
  apply dot_bak_eol_inv in Hk as (nl & -> & Hnl & ->).
  exists g, nl. now repeat split.
Qed.

Lemma version_tail_app (capture : bool) (pos : nat) (v nl : string) :
  v <> EmptyString -> all is_digit v = true -> end_or_newline nl ->
  match_at (version_tail capture) pos ("_v" ++ v ++ ".bak" ++ nl)
  = Some (if capture then [v] else []).
Proof.
  intros Hne Hd Hnl. unfold version_tail.
  change ("_v" ++ v ++ ".bak" ++ nl) with (String "_" (String "v" (v ++ ".bak" ++ nl))).
  cbn [match_at]. rewrite !Ascii.eqb_refl.
  rewrite (digits_plus_exact _ dot_bak_eol_no_digit) by
    (try assumption; destruct Hnl as [-> | ->]; reflexivity).
  now rewrite dot_bak_eol_app.
Qed.

End MatcherFacts.

(* ================================================================== *)
(** * What the two patterns of the program match *)

Section PatternFacts.
  Import Str Re.

Lemma backup_pattern_unfold (script_base : string) :
  AdaptCalc.backup_pattern script_base
  = Bol :: (lits script_base
            ++ Chr "_" :: DigitN 8 :: Chr "_" :: DigitN 6 :: version_tail false)%list.
Proof. reflexivity. Qed.

Lemma version_pattern_unfold : AdaptCalc.version_pattern = version_tail true.
Proof. reflexivity. Qed.

(** [pattern.match] lets through the names of the shape, and those names
    followed by a newline, and nothing else. *)
Lemma backup_pattern_accepts (script_base f : string) :
  AdaptCalc.is_match (re_match (AdaptCalc.backup_pattern script_base) f) = true
  <-> accepted script_base f.
Proof.
  unfold re_match. rewrite backup_pattern_unfold.
  change (match_at (Bol :: ?p) 0 f) with (match_at p 0 f).
  split.
  - destruct (match_at _ 0 f) as [gs|] eqn:H; [intros _ | discriminate].
    apply match_at_lits_inv in H as (r & -> & H).
    apply match_at_chr_inv in H as (r1 & -> & H).
    apply match_at_digits_inv in H as (d & r2 & -> & Hd8 & Hd & H).
    apply match_at_chr_inv in H as (r3 & -> & H).
    apply match_at_digits_inv in H as (t & r4 & -> & Ht6 & Ht & H).
    apply version_tail_inv in H as (v & nl & -> & Hne & Hv & Hnl & _).
    exists (script_base ++ "_" ++ d ++ "_" ++ t ++ "_v" ++ v ++ ".bak"), nl.
    split; [|split; [exists d, t, v; now repeat split | assumption]].
    repeat (rewrite append_assoc; simpl). reflexivity.
  - intros (f' & nl & -> & (d & t & v & -> & Hd8 & Hd & Ht6 & Ht & Hne & Hv) & Hnl).
    replace ((script_base ++ "_" ++ d ++ "_" ++ t ++ "_v" ++ v ++ ".bak") ++ nl)
      with (script_base ++ String "_" (d ++ String "_" (t ++ "_v" ++ v ++ ".bak" ++ nl)))
      by (repeat (rewrite append_assoc; simpl); reflexivity).
    rewrite match_at_lits_app, match_at_chr_app.
    rewrite <- Hd8, match_at_digits_app, match_at_chr_app by assumption.
    rewrite <- Ht6, match_at_digits_app by assumption.
    now rewrite version_tail_app.
Qed.

Lemma search_from_sound (p : pattern) :
  forall (s : string) (pos : nat) (gs : list string),
  search_from p pos s = Some gs ->
  exists x y, s = x ++ y /\ match_at p (pos + String.length x) y = Some gs.
Proof.
  induction s as [|a s IH]; intros pos gs; simpl.
  - destruct (match_at p pos "") eqn:E; [|discriminate].
    intros H. injection H as ->. exists EmptyString, EmptyString.
    simpl. now rewrite Nat.add_0_r.
  - destruct (match_at p pos (String a s)) eqn:E.
    + intros H. injection H as ->. exists EmptyString, (String a s).
      simpl. now rewrite Nat.add_0_r.
    + intros H. apply IH in H as (x & y & -> & H).
      exists (String a x), y. split; [reflexivity|].
      simpl. rewrite <- H. f_equal. lia.
Qed.

Lemma search_from_complete (p : pattern) :
  forall (x y : string) (pos : nat) (gs : list string),
  match_at p (pos + String.length x) y = Some gs ->
  exists gs', search_from p pos (x ++ y) = Some gs'.
Proof.
  induction x as [|a x IH]; intros y pos gs H; simpl in *.
  - rewrite Nat.add_0_r in H. exists gs. destruct y; simpl; now rewrite H.
  - destruct (match_at p pos (String a (x ++ y))) as [gs0|]; [now exists gs0|].
    apply (IH y (S pos) gs). rewrite <- H. f_equal. lia.
Qed.

Lemma version_field_no_underscore (v nl : string) :
  all is_digit v = true -> end_or_newline nl ->
  mem "_" ("v" ++ v ++ ".bak" ++ nl) = false.
Proof.
  intros Hv Hnl. simpl. rewrite mem_append.
  rewrite (all_not_mem is_digit "_" v Hv eq_refl).
  destruct Hnl as [-> | ->]; reflexivity.
Qed.

(** The version field of a name is the one after its last underscore. *)
Lemma after_last_version_field (y v nl : string) :
  all is_digit v = true -> end_or_newline nl ->
  after_last "_" (y ++ "_v" ++ v ++ ".bak" ++ nl) = "v" ++ v ++ ".bak" ++ nl.
Proof.
  intros Hv Hnl.
  change (y ++ "_v" ++ v ++ ".bak" ++ nl)
    with (y ++ String "_" ("v" ++ v ++ ".bak" ++ nl)).
  apply after_last_append. now apply version_field_no_underscore.
Qed.

Lemma leading_digits_version_field (v nl : string) :
  all is_digit v = true -> end_or_newline nl ->
  NamingScheme.leading_digits (v ++ ".bak" ++ nl) = v.
Proof.
  intros Hv Hnl. apply leading_digits_append; [assumption|].
  destruct Hnl as [-> | ->]; reflexivity.
Qed.

Lemma extractVersion_field (y v nl : string) :
  all is_digit v = true -> end_or_newline nl ->
  NamingScheme.extractVersion (y ++ "_v" ++ v ++ ".bak" ++ nl) = to_int v.
Proof.
  intros Hv Hnl. unfold NamingScheme.extractVersion.
  rewrite after_last_version_field by assumption.
  change (NamingScheme.drop_first ("v" ++ v ++ ".bak" ++ nl))
    with (v ++ ".bak" ++ nl).
  now rewrite leading_digits_version_field.
Qed.

(** [re.search(r"_v(\d+)\.bak$", b)] finds the version field, and only
    it. *)
Lemma search_version_field (y v nl : string) :
  v <> EmptyString -> all is_digit v = true -> end_or_newline nl ->
  re_search AdaptCalc.version_pattern (y ++ "_v" ++ v ++ ".bak" ++ nl) = Some [v].
Proof.
  intros Hne Hv Hnl. unfold re_search. rewrite version_pattern_unfold.
  destruct (search_from_complete (version_tail true) y
              ("_v" ++ v ++ ".bak" ++ nl) 0 [v]) as [gs Hgs].
  { now apply version_tail_app. }
  rewrite Hgs. f_equal.
  apply search_from_sound in Hgs as (x & z & Hxz & Hm).
  apply version_tail_inv in Hm as (v' & nl' & -> & Hne' & Hv' & Hnl' & ->).
  assert (E : "v" ++ v ++ ".bak" ++ nl = "v" ++ v' ++ ".bak" ++ nl').
  { rewrite <- (after_last_version_field y v nl Hv Hnl).
    rewrite <- (after_last_version_field x v' nl' Hv' Hnl').
    now rewrite Hxz. }
  injection E as E.
  apply (f_equal NamingScheme.leading_digits) in E.
  change (NamingScheme.leading_digits (v ++ ".bak" ++ nl)
          = NamingScheme.leading_digits (v' ++ ".bak" ++ nl')) in E.
  rewrite !leading_digits_version_field in E by assumption.
  now subst v'.
Qed.

(** Every name the pattern accepts ends in a version field. *)
Lemma accepted_version_field (script_base f : string) :
  accepted script_base f ->
  exists y v nl, f = y ++ "_v" ++ v ++ ".bak" ++ nl
    /\ v <> EmptyString /\ all is_digit v = true /\ end_or_newline nl.
Proof.
  intros (f' & nl & -> & (d & t & v & -> & _ & _ & _ & _ & Hne & Hv) & Hnl).
  exists (script_base ++ "_" ++ d ++ "_" ++ t), v, nl.
  split; [|now repeat split].
  repeat (rewrite append_assoc; simpl). reflexivity.
Qed.

(** On the names the pattern accepts, one turn of the loop takes the
    maximum with the version the name embeds. *)
Lemma bump_accepted (script_base b : string) (iteration : N) :
  accepted script_base b ->
  AdaptCalc.bump iteration b = N.max iteration (NamingScheme.extractVersion b).
Proof.
  intros H. apply accepted_version_field in H as (y & v & nl & -> & Hne & Hv & Hnl).
  unfold AdaptCalc.bump.
  rewrite search_version_field, extractVersion_field by assumption.
  destruct (iteration <? to_int v)%N eqn:E.
  - apply N.ltb_lt in E. lia.
  - apply N.ltb_ge in E. lia.
Qed.

End PatternFacts.

(* ================================================================== *)
(** * Facts about the stable sort *)

Section SortFacts.
Variable key : string -> Z.

Lemma insert_by_key_perm (x : string) (l : list string) :
  Permutation (insert_by_key key x l) (x :: l).
Proof.
  induction l as [|y l IH]; simpl; [reflexivity|].
  destruct (key x <=? key y)%Z; [reflexivity|].
  rewrite IH. apply perm_swap.
Qed.

Lemma sort_by_key_perm (l : list string) : Permutation (sort_by_key key l) l.
Proof.
  induction l as [|x l IH]; simpl; [reflexivity|].
  rewrite insert_by_key_perm. now constructor.
Qed.

Lemma sort_by_key_in (l : list string) (x : string) :
  In x (sort_by_key key l) <-> In x l.
Proof.
  split; apply Permutation_in;
    [apply sort_by_key_perm | symmetry; apply sort_by_key_perm].
Qed.

Lemma insert_by_key_sorted (x : string) (l : list string) :
  StronglySorted (key_le key) l -> StronglySorted (key_le key) (insert_by_key key x l).
Proof.
  induction l as [|y l IH]; simpl; intros Hs.
  - constructor; constructor.
  - destruct (key x <=? key y)%Z eqn:E.
    + apply Z.leb_le in E. constructor; [assumption|].
      inversion Hs as [|? ? _ Hall]; subst.
      constructor; [assumption|].
      eapply Forall_impl; [|exact Hall].
      intros z Hz. unfold key_le in *. lia.
    + apply Z.leb_gt in E. inversion Hs as [|? ? Hs' Hall]; subst.
      constructor; [now apply IH|].
      eapply Permutation_Forall; [symmetry; apply insert_by_key_perm|].
      constructor; [unfold key_le; lia | assumption].
Qed.

Lemma sort_by_key_sorted (l : list string) :
  StronglySorted (key_le key) (sort_by_key key l).
Proof.
  induction l as [|x l IH]; simpl; [constructor|].
  now apply insert_by_key_sorted.
Qed.

(** Stability: the elements of any one key keep the order they had. *)
Lemma insert_by_key_stable (t : Z) (x : string) (l : list string) :
  filter (fun f => (key f =? t)%Z) (insert_by_key key x l)
  = filter (fun f => (key f =? t)%Z) (x :: l).
Proof.
  induction l as [|y l IH]; simpl; [reflexivity|].
  destruct (key x <=? key y)%Z eqn:E; [reflexivity|].
  apply Z.leb_gt in E. simpl in *. rewrite IH.
  destruct (key x =? t)%Z eqn:Ex; [|reflexivity].
  apply Z.eqb_eq in Ex.
  assert (Ey : (key y =? t)%Z = false) by (apply Z.eqb_neq; lia).
  now rewrite Ey.
Qed.

Lemma sort_by_key_stable (t : Z) (l : list string) :
  filter (fun f => (key f =? t)%Z) (sort_by_key key l)
  = filter (fun f => (key f =? t)%Z) l.
Proof.
  induction l as [|x l IH]; simpl; [reflexivity|].
  rewrite insert_by_key_stable. simpl. now rewrite IH.
Qed.
End SortFacts.

(* ================================================================== *)
(** * Facts about maxima of version numbers *)

Section MaxFacts.
  Import NamingScheme.

Lemma max_version_ge (vs : list N) (v : N) : In v vs -> (v <= max_version vs)%N.
Proof.
  induction vs as [|w vs IH]; simpl; [contradiction|].
  intros [-> | H]; [lia|]. specialize (IH H). lia.
Qed.

Lemma max_version_le (vs : list N) (m : N) :
  (forall v, In v vs -> (v <= m)%N) -> (max_version vs <= m)%N.
Proof.
  induction vs as [|w vs IH]; simpl; intros H; [lia|].
  assert (w <= m)%N by (apply H; now left).
  assert (max_version vs <= m)%N by (apply IH; intros v Hv; apply H; now right).
  lia.
Qed.

(** The maximum depends on the set of the numbers alone. *)
Lemma max_version_same_set (vs ws : list N) :
  (forall v, In v vs <-> In v ws) -> max_version vs = max_version ws.
Proof.
  intros H. apply N.le_antisymm; apply max_version_le; intros v Hv;
    apply max_version_ge, H, Hv.
Qed.

Lemma max_version_map_same_set (f : string -> N) (l l' : list string) :
  (forall x, In x l <-> In x l') ->
  max_version (map f l) = max_version (map f l').
Proof.
  intros H. apply max_version_same_set. intros v. rewrite !in_map_iff.
  split; intros (x & Hx & Hin); exists x; (split; [assumption|]); now apply H.
Qed.

Lemma max_version_app (vs ws : list N) :
  max_version (vs ++ ws) = N.max (max_version vs) (max_version ws).
Proof. induction vs as [|v vs IH]; simpl; [lia|]. rewrite IH. lia. Qed.

Lemma fold_bump_max (script_base : string) (l : list string) :
  Forall (accepted script_base) l ->
  forall iteration : N,
  fold_left AdaptCalc.bump l iteration
  = N.max iteration (max_version (map extractVersion l)).
Proof.
  induction 1 as [|b l Hb _ IH]; intros iteration; simpl; [lia|].
  rewrite IH, (bump_accepted script_base) by assumption. lia.
Qed.

End MaxFacts.

(* ================================================================== *)
(** * Facts about the file system *)

Section FileSystemFacts.
  Import FS.

Lemma assoc_update (p q : string) (g : file -> file) (l : list (string * file)) :
  assoc q (update p g l)
  = if String.eqb q p then option_map g (assoc q l) else assoc q l.
Proof.
  induction l as [|[r f] l IH]; simpl.
  - now destruct (String.eqb q p).
  - destruct (String.eqb r p) eqn:Erp; simpl;
      destruct (String.eqb r q) eqn:Erq; try assumption.
    + apply String.eqb_eq in Erp, Erq. subst. now rewrite String.eqb_refl.
    + apply String.eqb_eq in Erq. subst. now rewrite Erp.
Qed.

Lemma map_fst_update (p : string) (g : file -> file) (l : list (string * file)) :
  map fst (update p g l) = map fst l.
Proof.
  unfold update. rewrite map_map. apply map_ext.
  intros [r f]. simpl. now destruct (String.eqb r p).
Qed.

Lemma assoc_app (p : string) (l l' : list (string * file)) :
  assoc p (l ++ l')
  = match assoc p l with Some f => Some f | None => assoc p l' end.
Proof.
  induction l as [|[r f] l IH]; simpl; [reflexivity|].
  now destruct (String.eqb r p).
Qed.

Lemma assoc_some_in (p : string) (l : list (string * file)) (f : file) :
  assoc p l = Some f -> In p (map fst l).
Proof.
  induction l as [|[r g] l IH]; simpl; [discriminate|].
  destruct (String.eqb r p) eqn:E; [|auto].
  apply String.eqb_eq in E. now left.
Qed.

Lemma assoc_in_some (p : string) (l : list (string * file)) :
  In p (map fst l) -> exists f, assoc p l = Some f.
Proof.
  induction l as [|[r g] l IH]; simpl; [contradiction|].
  destruct (String.eqb r p) eqn:E; [now exists g|].
  intros [H|H]; [|auto]. apply String.eqb_neq in E. contradiction.
Qed.

Lemma lookup_open_w_other (fs fs1 : t) (now : Z) (p q : string) :
  open_w fs now p = inr fs1 -> q <> p -> lookup fs1 q = lookup fs q.
Proof.
  unfold open_w, lookup. intros H Hq. apply String.eqb_neq in Hq.
  destruct (assoc p (entries fs)) as [f|] eqn:E.
  - destruct (writable f); [|discriminate]. injection H as <-. simpl.
    now rewrite assoc_update, Hq.
  - destruct (creatable fs); [|discriminate]. injection H as <-. simpl.
    rewrite assoc_app. destruct (assoc q (entries fs)); [reflexivity|].
    simpl. rewrite String.eqb_sym. now rewrite Hq.
Qed.

Lemma lookup_open_w_same (fs fs1 : t) (now : Z) (p : string) :
  open_w fs now p = inr fs1 -> exists f, lookup fs1 p = Some f.
Proof.
  unfold open_w, lookup. intros H.
  destruct (assoc p (entries fs)) as [f|] eqn:E.
  - destruct (writable f); [|discriminate]. injection H as <-. simpl.
    rewrite assoc_update, String.eqb_refl, E. simpl. eauto.
  - destruct (creatable fs); [|discriminate]. injection H as <-. simpl.
    rewrite assoc_app, E. simpl. rewrite String.eqb_refl. eauto.
Qed.

Lemma names_open_w (fs fs1 : t) (now : Z) (p : string) :
  open_w fs now p = inr fs1 ->
  forall q, In q (map fst (entries fs1)) <-> In q (map fst (entries fs)) \/ q = p.
Proof.
  unfold open_w, lookup. intros H q.
  destruct (assoc p (entries fs)) as [f|] eqn:E.
  - destruct (writable f); [|discriminate]. injection H as <-. simpl.
    rewrite map_fst_update. split; [auto|].
    intros [Hq | ->]; [assumption|]. eapply assoc_some_in, E.
  - destruct (creatable fs); [|discriminate]. injection H as <-. simpl.
    rewrite map_app, in_app_iff. simpl. intuition.
Qed.

Lemma lookup_write (fs : t) (now : Z) (p q text : string) :
  lookup (write fs now p text) q
  = if String.eqb q p then option_map (set_content text now) (lookup fs q)
    else lookup fs q.
Proof. unfold write, lookup. simpl. apply assoc_update. Qed.

Lemma names_write (fs : t) (now : Z) (p text : string) :
  map fst (entries (write fs now p text)) = map fst (entries fs).
Proof. unfold write. simpl. apply map_fst_update. Qed.

(** The ways the shared copy statement can go. *)
Lemma copy_text_cases (fs : t) (now : Z) (src dst : string) :
  (exists e, copy_text fs now src dst = (fs, Some e))
  \/ exists fs1, open_r fs src = None /\ open_w fs now dst = inr fs1
       /\ ((exists e, read fs1 src = inl e
                      /\ copy_text fs now src dst = (fs1, Some e))
           \/ (exists text, read fs1 src = inr text
                 /\ copy_text fs now src dst = (write fs1 now dst text, None))).
Proof.
  unfold copy_text. destruct (open_r fs src) as [e|] eqn:Er; [left; eauto|].
  destruct (open_w fs now dst) as [e|fs1] eqn:Ew; [left; eauto|].
  right. exists fs1. repeat split.
  destruct (read fs1 src) as [e|text]; [left | right]; eauto.
Qed.

(** A copy touches no file but its destination. *)
Lemma copy_text_frame (fs : t) (now : Z) (src dst q : string) :
  q <> dst -> lookup (fst (copy_text fs now src dst)) q = lookup fs q.
Proof.
  intros Hq.
  destruct (copy_text_cases fs now src dst)
    as [[e ->] | (fs1 & _ & Hw & [(e & _ & ->) | (text & _ & ->)])]; cbn [fst].
  - reflexivity.
  - eapply lookup_open_w_other; eassumption.
  - rewrite lookup_write. apply String.eqb_neq in Hq. rewrite Hq.
    eapply lookup_open_w_other; [eassumption|]. now apply String.eqb_neq.
Qed.

(** A copy removes no name, and adds none but its destination. *)
Lemma copy_text_names (fs : t) (now : Z) (src dst q : string) :
  (In q (map fst (entries fs)) ->
   In q (map fst (entries (fst (copy_text fs now src dst)))))
  /\ (In q (map fst (entries (fst (copy_text fs now src dst)))) ->
      In q (map fst (entries fs)) \/ q = dst).
Proof.
  destruct (copy_text_cases fs now src dst)
    as [[e ->] | (fs1 & _ & Hw & [(e & _ & ->) | (text & _ & ->)])]; cbn [fst].
  - auto.
  - rewrite (names_open_w _ _ _ _ Hw). auto.
  - rewrite names_write, (names_open_w _ _ _ _ Hw). auto.
Qed.

(** A copy that raised nothing: the source was there, readable and
    decodable, and the destination now holds its text. *)
Lemma copy_text_success (fs : t) (now : Z) (src dst : string) :
  snd (copy_text fs now src dst) = None -> src <> dst ->
  exists f g, lookup fs src = Some f /\ readable f = true /\ decodable f = true
    /\ lookup (fst (copy_text fs now src dst)) dst
       = Some (set_content (Str.universal_newlines (content f)) now g)
    /\ In dst (map fst (entries (fst (copy_text fs now src dst)))).
Proof.
  intros Hok Hne.
  destruct (copy_text_cases fs now src dst)
    as [[e E] | (fs1 & Hr & Hw & [(e & _ & E) | (text & Hrd & E)])];
    rewrite E in *; cbn [fst snd] in *; try discriminate.
  unfold open_r in Hr. unfold read in Hrd.
  rewrite (lookup_open_w_other _ _ _ _ _ Hw Hne) in Hrd.
  destruct (lookup fs src) as [f|] eqn:Ef; [|discriminate].
  destruct (readable f) eqn:Hrf; [|discriminate].
  destruct (decodable f) eqn:Hdf; [|discriminate].
  injection Hrd as <-.
  destruct (lookup_open_w_same _ _ _ _ Hw) as [g Hg].
  exists f, g.
  split; [reflexivity|]. split; [assumption|]. split; [assumption|]. split.
  - now rewrite lookup_write, String.eqb_refl, Hg.
  - rewrite names_write. apply (names_open_w _ _ _ _ Hw). now right.
Qed.

Lemma write_text_frame (fs : t) (now : Z) (p q text : string) :
  q <> p -> lookup (fst (write_text fs now p text)) q = lookup fs q.
Proof.
  intros Hq. unfold write_text.
  destruct (open_w fs now p) as [e|fs1] eqn:Hw; cbn [fst]; [reflexivity|].
  rewrite lookup_write. pose proof Hq as Hq'.
  apply String.eqb_neq in Hq'. rewrite Hq'.
  eapply lookup_open_w_other; eassumption.
Qed.

(** Writing a file that is there and writable raises nothing and leaves
    the text in it. *)
Lemma write_text_writable (fs : t) (now : Z) (p text : string) (f : file) :
  lookup fs p = Some f -> writable f = true ->
  snd (write_text fs now p text) = None
  /\ content_at (fst (write_text fs now p text)) p = Some text.
Proof.
  intros Hf Hw. unfold write_text, open_w. rewrite Hf, Hw. cbn [fst snd].
  split; [reflexivity|].
  unfold content_at. rewrite lookup_write, String.eqb_refl.
  unfold lookup. simpl. rewrite assoc_update, String.eqb_refl.
  unfold lookup in Hf. now rewrite Hf.
Qed.

End FileSystemFacts.

(* ================================================================== *)
(** * Facts about the names the program generates and lists *)

Section NameFacts.
  Import Str.
  Variable script_path : string.

Lemma digits_no_slash (s : string) : all is_digit s = true -> mem "/" s = false.
Proof. intros H. now apply (all_not_mem is_digit). Qed.

Lemma strftime_no_slash (t : datetime) : mem "/" (strftime t) = false.
Proof.
  unfold strftime. rewrite !mem_append.
  rewrite (digits_no_slash _ (of_int_all _)).
  rewrite !(digits_no_slash _ (two_digits_all _)).
  reflexivity.
Qed.

Lemma get_script_name_no_slash :
  mem "/" (AdaptCalc.get_script_name script_path) = false.
Proof.
  unfold AdaptCalc.get_script_name.
  pose proof (after_last_no_mem "/" script_path) as H.
  destruct (mem "." (after_last "/" script_path)) eqn:E; [|assumption].
  destruct (rsplit1_head_split _ _ E) as [ext Hext].
  rewrite Hext, mem_append in H. now apply orb_false_iff in H as [H _].
Qed.

Lemma backup_name_no_slash (fs : FS.t) (now : instant) :
  mem "/" (AdaptCalc.get_next_backup_filename script_path fs now) = false.
Proof.
  unfold AdaptCalc.get_next_backup_filename. rewrite !mem_append.
  rewrite get_script_name_no_slash, strftime_no_slash.
  now rewrite (digits_no_slash _ (of_int_all _)).
Qed.

(** The backup never goes to the path of the script itself. *)
Lemma backup_name_neq_script (fs : FS.t) (now : instant) :
  AdaptCalc.get_next_backup_filename script_path fs now <> script_path.
Proof.
  intros Heq.
  destruct (mem "/" script_path) eqn:Eslash.
  - pose proof (backup_name_no_slash fs now) as H. rewrite Heq in H. congruence.
  - revert Heq. unfold AdaptCalc.get_next_backup_filename.
    generalize (strftime (wall now) ++ "_v"
                ++ of_int (AdaptCalc.next_iteration script_path fs) ++ ".bak").
    intros r. unfold AdaptCalc.get_script_name.
    rewrite (after_last_id _ _ Eslash).
    destruct (mem "." script_path) eqn:Edot; intros Heq.
    + destruct (rsplit1_head_split _ _ Edot) as [ext Hext].
      pose proof (eq_trans Heq Hext) as H.
      apply append_inv_head in H. discriminate.
    + apply (f_equal String.length) in Heq.
      rewrite length_append in Heq. simpl in Heq. lia.
Qed.

(** The name generated at a four-digit year has the shape of the naming
    scheme, with the next iteration as its version. *)
Lemma backup_name_conforms (fs : FS.t) (now : instant) :
  four_digit_year (wall now) = true ->
  NamingScheme.conforms (AdaptCalc.get_script_name script_path)
    (AdaptCalc.get_next_backup_filename script_path fs now).
Proof.
  intros Hy. destruct (strftime_shape _ Hy) as (d & tm & E & Hd8 & Hd & Ht6 & Ht).
  exists d, tm, (of_int (AdaptCalc.next_iteration script_path fs)).
  repeat split; try assumption.
  - unfold AdaptCalc.get_next_backup_filename. rewrite E.
    repeat (rewrite append_assoc; simpl). reflexivity.
  - apply of_int_nonempty.
  - apply of_int_all.
Qed.

Lemma backup_name_accepted (fs : FS.t) (now : instant) :
  four_digit_year (wall now) = true ->
  accepted (AdaptCalc.get_script_name script_path)
    (AdaptCalc.get_next_backup_filename script_path fs now).
Proof.
  intros Hy. exists (AdaptCalc.get_next_backup_filename script_path fs now), "".
  split; [now rewrite append_nil_r|].
  split; [now apply backup_name_conforms | now left].
Qed.

Lemma extractVersion_backup_name (fs : FS.t) (now : instant) :
  NamingScheme.extractVersion (AdaptCalc.get_next_backup_filename script_path fs now)
  = AdaptCalc.next_iteration script_path fs.
Proof.
  unfold AdaptCalc.get_next_backup_filename.
  replace (AdaptCalc.get_script_name script_path ++ "_" ++ strftime (wall now)
           ++ "_v" ++ of_int (AdaptCalc.next_iteration script_path fs) ++ ".bak")
    with ((AdaptCalc.get_script_name script_path ++ "_" ++ strftime (wall now))
          ++ "_v" ++ of_int (AdaptCalc.next_iteration script_path fs)
          ++ ".bak" ++ "")
    by (repeat (rewrite append_assoc; simpl); reflexivity).
  rewrite extractVersion_field; [apply to_int_of_int | apply of_int_all | now left].
Qed.

Lemma in_listdir (fs : FS.t) (f : string) :
  In f (FS.listdir fs) <-> In f (map fst (FS.entries fs)) /\ mem "/" f = false.
Proof.
  unfold FS.listdir. rewrite filter_In, negb_true_iff. reflexivity.
Qed.

Lemma in_list_backup_files (fs : FS.t) (f : string) :
  In f (AdaptCalc.list_backup_files script_path fs)
  <-> In f (FS.listdir fs) /\ accepted (AdaptCalc.get_script_name script_path) f.
Proof.
  unfold AdaptCalc.list_backup_files.
  now rewrite sort_by_key_in, filter_In, backup_pattern_accepts.
Qed.

Lemma list_backup_files_accepted (fs : FS.t) :
  Forall (accepted (AdaptCalc.get_script_name script_path))
    (AdaptCalc.list_backup_files script_path fs).
Proof. apply Forall_forall. intros f Hf. now apply in_list_backup_files in Hf. Qed.

(** The loop of [get_next_backup_filename] computes one more than the
    greatest version among the names listed. *)
Lemma next_iteration_max (fs : FS.t) :
  AdaptCalc.next_iteration script_path fs
  = (1 + NamingScheme.max_version
           (map NamingScheme.extractVersion
              (AdaptCalc.list_backup_files script_path fs)))%N.
Proof.
  unfold AdaptCalc.next_iteration.
  rewrite (fold_bump_max _ _ (list_backup_files_accepted fs)). lia.
Qed.


Lemma backup_script_custom_eq (fs : FS.t) (now : instant) (file_path : string) :
  AdaptCalc.backup_script_custom script_path fs now file_path
  = (fst (FS.copy_text fs (stamp now) file_path
            (AdaptCalc.get_next_backup_filename script_path fs now)),
     AdaptCalc.get_next_backup_filename script_path fs now,
     snd (FS.copy_text fs (stamp now) file_path
            (AdaptCalc.get_next_backup_filename script_path fs now))).
Proof.
  unfold AdaptCalc.backup_script_custom.
  now destruct (FS.copy_text _ _ _ _).
Qed.

(** Whatever becomes of the backup, the script is as it was after it. *)
Lemma backup_keeps_script (fs fs1 : FS.t) (now : instant) (name : string)
  (warning : option FS.error) :
  AdaptCalc.backup_script_custom script_path fs now script_path
  = (fs1, name, warning) ->
  FS.lookup fs1 script_path = FS.lookup fs script_path.
Proof.
  rewrite backup_script_custom_eq. intros H. injection H as <- _ _.
  apply copy_text_frame.
  intros E. symmetry in E. revert E. apply backup_name_neq_script.
Qed.

End NameFacts.

(* ================================================================== *)
(** * The backup repository: listing and numbering *)

Section Repository.
  Import Str.

Lemma names_delete_files (gone : list string) (fs : FS.t) (q : string) :
  In q (map fst (FS.entries (delete_files gone fs)))
  <-> In q (map fst (FS.entries fs)) /\ existsb (String.eqb q) gone = false.
Proof.
  unfold delete_files. simpl. rewrite !in_map_iff. split.
  - intros ([r f] & <- & H). apply filter_In in H as [H1 H2].
    apply negb_true_iff in H2. split; [|assumption]. now exists (r, f).
  - intros (([r f] & <- & H1) & H2). exists (r, f). split; [reflexivity|].
    apply filter_In. split; [assumption|]. now apply negb_true_iff.
Qed.

Lemma in_list_backup_files_delete (script_path : string) (gone : list string)
  (fs : FS.t) (b : string) :
  In b (AdaptCalc.list_backup_files script_path (delete_files gone fs))
  <-> In b (filter (fun b => negb (existsb (String.eqb b) gone))
              (AdaptCalc.list_backup_files script_path fs)).
Proof.
  rewrite filter_In, !in_list_backup_files, !in_listdir, names_delete_files.
  rewrite negb_true_iff. tauto.
Qed.

(** C5.  In every state of the directory the next version is one more
    than the greatest version among the backups listed, and 1 when none
    is listed; so after any files were deleted by hand it is one more
    than the greatest version that remains, above every remaining
    version. *)
Theorem next_version_is_succ_of_max (script_path : string) (fs : FS.t) :
  Re.plain (AdaptCalc.get_script_name script_path) = true ->
  (forall now,
     AdaptCalc.get_next_backup_filename script_path fs now
     = NamingScheme.backupName (AdaptCalc.get_script_name script_path)
         (wall now) (AdaptCalc.next_iteration script_path fs))
  /\ AdaptCalc.next_iteration script_path fs
     = (1 + NamingScheme.max_version
              (map NamingScheme.extractVersion
                 (AdaptCalc.list_backup_files script_path fs)))%N
  /\ (AdaptCalc.list_backup_files script_path fs = [] ->
      AdaptCalc.next_iteration script_path fs = 1%N)
  /\ forall gone : list string,
       AdaptCalc.next_iteration script_path (delete_files gone fs)
       = (1 + NamingScheme.max_version
                (map NamingScheme.extractVersion
                   (filter (fun b => negb (existsb (String.eqb b) gone))
                      (AdaptCalc.list_backup_files script_path fs))))%N
       /\ forall b,
            In b (AdaptCalc.list_backup_files script_path (delete_files gone fs)) ->
            (NamingScheme.extractVersion b
             < AdaptCalc.next_iteration script_path (delete_files gone fs))%N.
Proof.
  intros _. split; [reflexivity|]. split; [apply next_iteration_max|].
  split.
  - intros E. now rewrite next_iteration_max, E.
  - intros gone. split.
    + rewrite next_iteration_max. f_equal.
      apply max_version_map_same_set. intros b.
      apply in_list_backup_files_delete.
    + intros b Hb. rewrite next_iteration_max.
      assert (NamingScheme.extractVersion b
              <= NamingScheme.max_version
                   (map NamingScheme.extractVersion
                      (AdaptCalc.list_backup_files script_path
                         (delete_files gone fs))))%N
        by (apply max_version_ge, in_map, Hb).
      lia.
Qed.


(** C7, as the code has it.  The listing holds exactly the names of the
    directory that the pattern lets through, in ascending order of
    modification time; names of equal modification time keep the order in
    which the directory enumerated them. *)
Theorem list_backup_files_sorted_stable (script_path : string) (fs : FS.t) :
  Re.plain (AdaptCalc.get_script_name script_path) = true ->
  (forall f,
     In f (AdaptCalc.list_backup_files script_path fs)
     <-> In f (FS.listdir fs)
         /\ accepted (AdaptCalc.get_script_name script_path) f)
  /\ Permutation (AdaptCalc.list_backup_files script_path fs)
       (filter (fun f => AdaptCalc.is_match
                  (Re.re_match (AdaptCalc.backup_pattern
                                  (AdaptCalc.get_script_name script_path)) f))
          (FS.listdir fs))
  /\ StronglySorted (key_le (FS.getmtime fs))
       (AdaptCalc.list_backup_files script_path fs)
  /\ forall t : Z,
       filter (fun f => (FS.getmtime fs f =? t)%Z)
         (AdaptCalc.list_backup_files script_path fs)
       = filter (fun f => (FS.getmtime fs f =? t)%Z)
           (filter (fun f => AdaptCalc.is_match
                      (Re.re_match (AdaptCalc.backup_pattern
                                      (AdaptCalc.get_script_name script_path)) f))
              (FS.listdir fs)).
Proof.
  intros _. split; [intros f; apply in_list_backup_files|].
  unfold AdaptCalc.list_backup_files.
  split; [apply sort_by_key_perm|].
  split; [apply sort_by_key_sorted|].
  intros t. apply sort_by_key_stable.
Qed.

(** C7, as the specification has it, fails: two backups of one
    modification time come out in the order of enumeration, here version
    2 before version 1. *)
Lemma list_backup_files_ties_unordered :
  AdaptCalc.list_backup_files "calc.py" Sample.fs_ties
  = ["calc_20250101_110000_v2.bak"; "calc_20250101_100000_v1.bak"]
  /\ FS.getmtime Sample.fs_ties "calc_20250101_110000_v2.bak"
     = FS.getmtime Sample.fs_ties "calc_20250101_100000_v1.bak"
  /\ NamingScheme.extractVersion "calc_20250101_110000_v2.bak" = 2%N
  /\ NamingScheme.extractVersion "calc_20250101_100000_v1.bak" = 1%N.
Proof. vm_compute. repeat split. Qed.

(** C9.  When the sanitised answer of the model is empty, the empty
    script message is shown and nothing on disk changes: no backup is
    made and the script is not written. *)
Theorem empty_new_code_is_rejected (script_path : string) (exec_ok : bool)
  (fs : FS.t) (now : instant) (raw_response : string) :
  AdaptCalc.sanitize_script_response raw_response = EmptyString ->
  AdaptCalc.customize_entire_script script_path exec_ok fs now raw_response
  = (fs, EmptyScriptShown).
Proof.
  intros H. unfold AdaptCalc.customize_entire_script. now rewrite H.
Qed.

End Repository.

(* ================================================================== *)
(** * The backup writer *)

Section Writer.
  Import Str.
  Variable script_path : string.

(** What a backup of the script that raised nothing has done. *)
Lemma backup_success (fs fs1 : FS.t) (now : instant) (name : string) :
  AdaptCalc.backup_script_custom script_path fs now script_path
  = (fs1, name, None) ->
  name = AdaptCalc.get_next_backup_filename script_path fs now
  /\ exists f g,
       FS.lookup fs script_path = Some f
       /\ FS.readable f = true /\ FS.decodable f = true
       /\ FS.lookup fs1 name
          = Some (FS.set_content (universal_newlines (FS.content f)) (stamp now) g)
       /\ In name (map fst (FS.entries fs1)).
Proof.
  rewrite backup_script_custom_eq. intros H. injection H as <- <- Hok.
  split; [reflexivity|].
  apply copy_text_success; [assumption|].
  intros E. symmetry in E. revert E. apply backup_name_neq_script.
Qed.

(** The names of the directory after a backup, whatever became of it. *)
Lemma backup_names (fs fs1 : FS.t) (now : instant) (name : string)
  (warning : option FS.error) (q : string) :
  AdaptCalc.backup_script_custom script_path fs now script_path
  = (fs1, name, warning) ->
  (In q (map fst (FS.entries fs)) -> In q (map fst (FS.entries fs1)))
  /\ (In q (map fst (FS.entries fs1)) ->
      In q (map fst (FS.entries fs)) \/ q = name).
Proof.
  rewrite backup_script_custom_eq. intros H. injection H as <- <- _.
  apply copy_text_names.
Qed.

(** A backup touches no file but the one it names. *)
Lemma backup_frame (fs fs1 : FS.t) (now : instant) (name : string)
  (warning : option FS.error) (q : string) :
  AdaptCalc.backup_script_custom script_path fs now script_path
  = (fs1, name, warning) ->
  q <> name -> FS.lookup fs1 q = FS.lookup fs q.
Proof.
  rewrite backup_script_custom_eq. intros H. injection H as <- <- _.
  apply copy_text_frame.
Qed.

End Writer.

(* ================================================================== *)
(** * Numbering in a run of backups *)

Section Numbering.
  Import Str.
  Variable script_path : string.





End Numbering.

(* ================================================================== *)
(** * The pattern and the naming scheme *)

Section Grammar.
  Import Str.

Lemma last_char_append (x y : string) :
  y <> EmptyString -> last_char (x ++ y) = last_char y.
Proof.
  intros Hy. induction x as [|a x IH]; simpl; [reflexivity|].
  rewrite IH. destruct (x ++ y) eqn:E; [|reflexivity].
  destruct x; simpl in E; [contradiction | discriminate].
Qed.

Lemma conforms_last_char (baseName f : string) :
  NamingScheme.conforms baseName f -> last_char f = Some "k"%char.
Proof.
  intros (d & t & v & -> & _).
  replace (baseName ++ "_" ++ d ++ "_" ++ t ++ "_v" ++ v ++ ".bak")
    with ((baseName ++ "_" ++ d ++ "_" ++ t ++ "_v" ++ v) ++ ".bak")
    by (repeat (rewrite append_assoc; simpl); reflexivity).
  now rewrite last_char_append.
Qed.

(** C8 fails on a name that ends in a newline.  The pattern's [$] also
    matches just before a final newline, so [pattern.match] lets through
    a name that does not have the shape of the naming scheme, and the
    listing returns it. *)
Theorem pattern_accepts_trailing_newline :
  AdaptCalc.is_match
    (Re.re_match (AdaptCalc.backup_pattern "calc") Sample.name_with_newline) = true
  /\ ~ NamingScheme.conforms "calc" Sample.name_with_newline
  /\ AdaptCalc.list_backup_files "calc.py"
       {| FS.entries := [(Sample.name_with_newline, Sample.file_of "x" 1)];
          FS.creatable := true |}
     = [Sample.name_with_newline].
Proof.
  split; [reflexivity|]. split; [|reflexivity].
  intros H. apply conforms_last_char in H. discriminate.
Qed.

(** C10 fails on a directory that holds a name ending in a newline.  The
    directory with the script alone and the one that also holds the
    stray name have the same names of the shape of the naming scheme
    (none), but the filter of the listing lets the stray name through and
    the numbering loop reads a version in it: the next backup is numbered
    1 in the first directory and 2 in the second. *)
Theorem stray_name_changes_next_version :
  (forall n, NamingScheme.conforms "calc" n ->
     (In n (FS.listdir Sample.fs_script) <-> In n (FS.listdir Sample.fs_stray)))
  /\ AdaptCalc.list_backup_files "calc.py" Sample.fs_script = []
  /\ AdaptCalc.list_backup_files "calc.py" Sample.fs_stray
     = [Sample.name_with_newline]
  /\ AdaptCalc.next_iteration "calc.py" Sample.fs_script = 1%N
  /\ AdaptCalc.next_iteration "calc.py" Sample.fs_stray = 2%N
  /\ AdaptCalc.get_next_backup_filename "calc.py" Sample.fs_script Sample.now0
     = "calc_20250306_153012_v1.bak"
  /\ AdaptCalc.get_next_backup_filename "calc.py" Sample.fs_stray Sample.now0
     = "calc_20250306_153012_v2.bak".
Proof.
  split; [|repeat split; vm_compute; reflexivity].
  intros n Hc.
  change (FS.listdir Sample.fs_script) with ["calc.py"].
  change (FS.listdir Sample.fs_stray) with ["calc.py"; Sample.name_with_newline].
  split; intros H.
  - destruct H as [H|[]]. now left.
  - destruct H as [H|[H|[]]]; [now left|].
    subst n. apply conforms_last_char in Hc. discriminate.
Qed.

End Grammar.

(* ================================================================== *)
(** * Replace and revert *)

Section Controllers.
  Import Str.
  Variable script_path : string.

Lemma overwrite_self_eq (exec_ok : bool) (fs fs1 : FS.t) (now : instant)
  (new_code name : string) (warning : option FS.error) :
  AdaptCalc.backup_script_custom script_path fs now script_path
  = (fs1, name, warning) ->
  AdaptCalc.overwrite_self script_path exec_ok fs now new_code
  = AdaptCalc.overwrite_step script_path exec_ok fs1 now new_code.
Proof. intros H. unfold AdaptCalc.overwrite_self. now rewrite H. Qed.

Lemma revert_to_backup_eq (exec_ok : bool) (fs fs1 : FS.t) (now : instant)
  (backup_filename name : string) (warning : option FS.error) :
  AdaptCalc.backup_script_custom script_path fs now script_path
  = (fs1, name, warning) ->
  AdaptCalc.revert_to_backup script_path exec_ok fs now backup_filename
  = AdaptCalc.restore_step script_path exec_ok fs1 now backup_filename.
Proof. intros H. unfold AdaptCalc.revert_to_backup. now rewrite H. Qed.

Lemma overwrite_step_fst (exec_ok : bool) (fs : FS.t) (now : instant)
  (new_code : string) :
  fst (AdaptCalc.overwrite_step script_path exec_ok fs now new_code)
  = fst (FS.write_text fs (stamp now) script_path new_code).
Proof.
  unfold AdaptCalc.overwrite_step.
  now destruct (FS.write_text fs (stamp now) script_path new_code) as [fs' [e|]].
Qed.

Lemma restore_step_fst (exec_ok : bool) (fs : FS.t) (now : instant)
  (backup_filename : string) :
  fst (AdaptCalc.restore_step script_path exec_ok fs now backup_filename)
  = fst (FS.copy_text fs (stamp now) backup_filename script_path).
Proof.
  unfold AdaptCalc.restore_step.
  now destruct (FS.copy_text fs (stamp now) backup_filename script_path)
    as [fs' [e|]].
Qed.

(** C1, as the code has it.  A backup that fails is reported as a
    warning and leaves the script as it was; neither replace nor revert
    stops there: each goes on to its overwriting step, and replace writes
    the new code into a script that is writable. *)
Theorem failed_backup_does_not_stop_overwrite (exec_ok : bool) (fs fs1 : FS.t)
  (now : instant) (name : string) (e : FS.error) :
  Re.plain (AdaptCalc.get_script_name script_path) = true ->
  AdaptCalc.backup_script_custom script_path fs now script_path
  = (fs1, name, Some e) ->
  FS.lookup fs1 script_path = FS.lookup fs script_path
  /\ (forall new_code,
        AdaptCalc.overwrite_self script_path exec_ok fs now new_code
        = AdaptCalc.overwrite_step script_path exec_ok fs1 now new_code)
  /\ (forall backup_filename,
        AdaptCalc.revert_to_backup script_path exec_ok fs now backup_filename
        = AdaptCalc.restore_step script_path exec_ok fs1 now backup_filename)
  /\ (forall new_code f,
        FS.lookup fs script_path = Some f -> FS.writable f = true ->
        content_at
          (fst (AdaptCalc.overwrite_self script_path exec_ok fs now new_code))
          script_path
        = Some new_code).
Proof.
  intros _ Hb.
  pose proof (backup_keeps_script _ _ _ _ _ _ Hb) as Hkeep.
  split; [assumption|].
  split; [intros new_code; eapply overwrite_self_eq; eassumption|].
  split; [intros backup_filename; eapply revert_to_backup_eq; eassumption|].
  intros new_code f Hf Hw.
  rewrite (overwrite_self_eq _ _ _ _ _ _ _ Hb), overwrite_step_fst.
  rewrite <- Hkeep in Hf.
  now apply (write_text_writable _ _ _ _ _ Hf Hw).
Qed.

(** C1, as the specification has it, fails: in a directory that is not
    writable the backup raises, and replace overwrites the script all the
    same. *)
Lemma failed_backup_script_overwritten :
  AdaptCalc.backup_script_custom "calc.py" Sample.fs_locked Sample.now0 "calc.py"
  = (Sample.fs_locked, "calc_20250306_153012_v1.bak", Some FS.PermissionError)
  /\ content_at Sample.fs_locked "calc.py" = Some "old"
  /\ content_at
       (fst (AdaptCalc.overwrite_self "calc.py" true Sample.fs_locked
               Sample.now0 "new"))
       "calc.py"
     = Some "new"
  /\ snd (AdaptCalc.overwrite_self "calc.py" true Sample.fs_locked
            Sample.now0 "new")
     = Restarted.
Proof. vm_compute. repeat split. Qed.

(** C2, as the code has it.  When the backup of replace or revert
    succeeded, the script is still untouched when the overwriting step
    starts, the backup is another file than the script, it holds the text
    of the script, and it still does when the operation is over. *)
Theorem backup_precedes_overwrite (exec_ok : bool) (fs fs1 : FS.t)
  (now : instant) (name : string) :
  Re.plain (AdaptCalc.get_script_name script_path) = true ->
  AdaptCalc.backup_script_custom script_path fs now script_path
  = (fs1, name, None) ->
  exists f,
    FS.lookup fs script_path = Some f
    /\ FS.lookup fs1 script_path = Some f
    /\ name <> script_path
    /\ content_at fs1 name = Some (universal_newlines (FS.content f))
    /\ (forall new_code,
          AdaptCalc.overwrite_self script_path exec_ok fs now new_code
          = AdaptCalc.overwrite_step script_path exec_ok fs1 now new_code
          /\ content_at
               (fst (AdaptCalc.overwrite_self script_path exec_ok fs now new_code))
               name
             = Some (universal_newlines (FS.content f)))
    /\ (forall backup_filename,
          AdaptCalc.revert_to_backup script_path exec_ok fs now backup_filename
          = AdaptCalc.restore_step script_path exec_ok fs1 now backup_filename
          /\ content_at
               (fst (AdaptCalc.revert_to_backup script_path exec_ok fs now
                       backup_filename))
               name
             = Some (universal_newlines (FS.content f))).
Proof.
  intros _ Hb.
  destruct (backup_success _ _ _ _ _ Hb) as (Hname & f & g & Hf & _ & _ & Hg & _).
  assert (Hne : name <> script_path)
    by (rewrite Hname; apply backup_name_neq_script).
  assert (Hc : content_at fs1 name = Some (universal_newlines (FS.content f)))
    by (unfold content_at; now rewrite Hg).
  exists f. split; [assumption|].
  split; [now rewrite (backup_keeps_script _ _ _ _ _ _ Hb)|].
  split; [assumption|]. split; [assumption|]. split.
  - intros new_code. split; [eapply overwrite_self_eq; eassumption|].
    rewrite (overwrite_self_eq _ _ _ _ _ _ _ Hb), overwrite_step_fst.
    unfold content_at in *. now rewrite write_text_frame.
  - intros backup_filename. split; [eapply revert_to_backup_eq; eassumption|].
    rewrite (revert_to_backup_eq _ _ _ _ _ _ _ Hb), restore_step_fst.
    unfold content_at in *. now rewrite copy_text_frame.
Qed.

(** C2, as the specification has it, fails.  The revert tool writes the
    script without making any backup, and replace writes it after a
    backup that failed; replace after a backup that succeeded leaves the
    text of a script with its line endings translated, not its bytes.  In
    all three cases no file holds the old content afterwards. *)
Lemma script_written_without_backup :
  (content_at Sample.fs_tool "adaptcalc.py" = Some "current"
   /\ content_at
        (fst (RevertTool.revert_backup Sample.fs_tool Sample.now0
                "adaptcalc_20250101_100000_v1.bak"))
        "adaptcalc.py"
      = Some "older"
   /\ Sample.holds
        (fst (RevertTool.revert_backup Sample.fs_tool Sample.now0
                "adaptcalc_20250101_100000_v1.bak"))
        "current"
      = false)
  /\ (content_at Sample.fs_locked "calc.py" = Some "old"
      /\ content_at
           (fst (AdaptCalc.overwrite_self "calc.py" true Sample.fs_locked
                   Sample.now0 "new"))
           "calc.py"
         = Some "new"
      /\ Sample.holds
           (fst (AdaptCalc.overwrite_self "calc.py" true Sample.fs_locked
                   Sample.now0 "new"))
           "old"
         = false)
  /\ (content_at Sample.fs_crlf "calc.py" = Some Sample.crlf_text
      /\ snd (AdaptCalc.backup_script_custom "calc.py" Sample.fs_crlf Sample.now0
                "calc.py")
         = None
      /\ Sample.holds
           (fst (AdaptCalc.overwrite_self "calc.py" true Sample.fs_crlf
                   Sample.now0 "new"))
           Sample.crlf_text
         = false).
Proof. vm_compute. repeat split. Qed.

(** C3, as the code has it.  Revert called with a name that is no file
    on disk, and is not the name of the backup the call itself makes,
    shows the not-found error and leaves the script as it was; what it
    leaves on disk is what its own backup step left. *)
Theorem revert_missing_backup_keeps_script (exec_ok : bool) (fs : FS.t)
  (now : instant) (backup_filename : string) :
  Re.plain (AdaptCalc.get_script_name script_path) = true ->
  FS.lookup fs backup_filename = None ->
  backup_filename <> AdaptCalc.get_next_backup_filename script_path fs now ->
  snd (AdaptCalc.revert_to_backup script_path exec_ok fs now backup_filename)
  = ErrorShown FS.FileNotFoundError
  /\ FS.lookup
       (fst (AdaptCalc.revert_to_backup script_path exec_ok fs now backup_filename))
       script_path
     = FS.lookup fs script_path
  /\ fst (AdaptCalc.revert_to_backup script_path exec_ok fs now backup_filename)
     = fst (fst (AdaptCalc.backup_script_custom script_path fs now script_path)).
Proof.
  intros _ Hmissing Hne.
  destruct (AdaptCalc.backup_script_custom script_path fs now script_path)
    as [[fs1 name] warning] eqn:Hb.
  rewrite (revert_to_backup_eq _ _ _ _ _ _ _ Hb).
  assert (Hname : name = AdaptCalc.get_next_backup_filename script_path fs now)
    by (rewrite backup_script_custom_eq in Hb; now injection Hb as _ <- _).
  assert (Hnone : FS.lookup fs1 backup_filename = None).
  { rewrite (backup_frame _ _ _ _ _ _ _ Hb); [assumption | now rewrite Hname]. }
  unfold AdaptCalc.restore_step, FS.copy_text, FS.open_r. rewrite Hnone.
  cbn [fst snd]. split; [reflexivity|]. split; [|reflexivity].
  exact (backup_keeps_script _ _ _ _ _ _ Hb).
Qed.

(** C3, as the specification has it, fails: revert called with a name
    that is not on disk shows the error, but has made a new backup
    first. *)
Lemma revert_missing_backup_creates_backup :
  FS.lookup Sample.fs_script "calc_20240101_000000_v9.bak" = None
  /\ AdaptCalc.list_backup_files "calc.py" Sample.fs_script = []
  /\ snd (AdaptCalc.revert_to_backup "calc.py" true Sample.fs_script Sample.now0
            "calc_20240101_000000_v9.bak")
     = ErrorShown FS.FileNotFoundError
  /\ AdaptCalc.list_backup_files "calc.py"
       (fst (AdaptCalc.revert_to_backup "calc.py" true Sample.fs_script
               Sample.now0 "calc_20240101_000000_v9.bak"))
     = ["calc_20250306_153012_v1.bak"].
Proof. vm_compute. repeat split. Qed.

(** C4, as the code has it.  A backup that succeeded holds the text of
    the script as text-mode reading gives it, line endings translated;
    reading the backup gives what reading the script gave at the call;
    the backup equals the script where the script has no carriage
    return; and a later write to the script leaves the backup as it
    is. *)
Theorem backup_holds_text_of_script (fs fs1 : FS.t) (now : instant)
  (name : string) :
  Re.plain (AdaptCalc.get_script_name script_path) = true ->
  AdaptCalc.backup_script_custom script_path fs now script_path
  = (fs1, name, None) ->
  exists f,
    FS.lookup fs script_path = Some f
    /\ content_at fs1 name = Some (universal_newlines (FS.content f))
    /\ FS.read fs1 name = FS.read fs script_path
    /\ (mem CR (FS.content f) = false -> content_at fs1 name = Some (FS.content f))
    /\ forall (later : Z) (text : string),
         content_at (fst (FS.write_text fs1 later script_path text)) name
         = Some (universal_newlines (FS.content f)).
Proof.
  intros _ Hb.
  destruct (backup_success _ _ _ _ _ Hb) as (Hname & f & g & Hf & _ & Hd & Hg & _).
  assert (Hne : name <> script_path)
    by (rewrite Hname; apply backup_name_neq_script).
  assert (Hc : content_at fs1 name = Some (universal_newlines (FS.content f)))
    by (unfold content_at; now rewrite Hg).
  exists f. split; [assumption|]. split; [assumption|]. split; [|split].
  - unfold FS.read. rewrite Hg, Hf, Hd. cbn [FS.set_content FS.decodable FS.content].
    now rewrite universal_newlines_idem.
  - intros Hcr. now rewrite Hc, universal_newlines_id.
  - intros later text. unfold content_at in *. now rewrite write_text_frame.
Qed.

(** C4, as the specification has it, fails: the backup of a script whose
    lines end in carriage return and line feed succeeds and holds line
    feeds alone. *)
Lemma backup_translates_line_endings :
  content_at Sample.fs_crlf "calc.py" = Some Sample.crlf_text
  /\ snd (AdaptCalc.backup_script_custom "calc.py" Sample.fs_crlf Sample.now0
            "calc.py")
     = None
  /\ content_at
       (fst (fst (AdaptCalc.backup_script_custom "calc.py" Sample.fs_crlf
                    Sample.now0 "calc.py")))
       "calc_20250306_153012_v1.bak"
     = Some Sample.lf_text
  /\ String.eqb Sample.lf_text Sample.crlf_text = false.
Proof. vm_compute. repeat split. Qed.

End Controllers.

(* ================================================================== *)
(** * The theorems at concrete inputs *)

(** The guard against an empty script sits in the caller:
    [overwrite_self] itself writes whatever it is given. *)
Remark overwrite_self_takes_empty_code :
  content_at
    (fst (AdaptCalc.overwrite_self "calc.py" true Sample.fs_script Sample.now0 ""))
    "calc.py"
  = Some "".
Proof. reflexivity. Qed.

Lemma failed_backup_does_not_stop_overwrite_witness :
  content_at
    (fst (AdaptCalc.overwrite_self "calc.py" true Sample.fs_locked Sample.now0
            "new"))
    "calc.py"
  = Some "new".
Proof.
  refine (proj2 (proj2 (proj2
    (failed_backup_does_not_stop_overwrite "calc.py" true Sample.fs_locked
       Sample.fs_locked Sample.now0 "calc_20250306_153012_v1.bak"
       FS.PermissionError _ _))) "new" (Sample.file_of "old" 1) _ _);
    vm_compute; reflexivity.
Defined.

Lemma backup_precedes_overwrite_witness :
  exists f,
    FS.lookup Sample.fs_script "calc.py" = Some f
    /\ content_at
         (fst (AdaptCalc.overwrite_self "calc.py" true Sample.fs_script
                 Sample.now0 "new"))
         "calc_20250306_153012_v1.bak"
       = Some (Str.universal_newlines (FS.content f)).
Proof.
  destruct (backup_precedes_overwrite "calc.py" true Sample.fs_script
              (fst (fst (AdaptCalc.backup_script_custom "calc.py" Sample.fs_script
                           Sample.now0 "calc.py")))
              Sample.now0 "calc_20250306_153012_v1.bak")
    as (f & Hf & _ & _ & _ & Hover & _);
    [vm_compute; reflexivity | vm_compute; reflexivity |].
  exists f. split; [exact Hf | exact (proj2 (Hover "new"))].
Defined.

Lemma revert_missing_backup_keeps_script_witness :
  snd (AdaptCalc.revert_to_backup "calc.py" true Sample.fs_script Sample.now0
         "calc_20240101_000000_v9.bak")
  = ErrorShown FS.FileNotFoundError
  /\ FS.lookup
       (fst (AdaptCalc.revert_to_backup "calc.py" true Sample.fs_script
               Sample.now0 "calc_20240101_000000_v9.bak"))
       "calc.py"
     = FS.lookup Sample.fs_script "calc.py".
Proof.
  destruct (revert_missing_backup_keeps_script "calc.py" true Sample.fs_script
              Sample.now0 "calc_20240101_000000_v9.bak")
    as (H1 & H2 & _);
    [vm_compute; reflexivity | vm_compute; reflexivity
    | vm_compute; discriminate |].
  split; [exact H1 | exact H2].
Defined.

Lemma backup_holds_text_of_script_witness :
  exists f,
    FS.lookup Sample.fs_crlf "calc.py" = Some f
    /\ content_at
         (fst (fst (AdaptCalc.backup_script_custom "calc.py" Sample.fs_crlf
                      Sample.now0 "calc.py")))
         "calc_20250306_153012_v1.bak"
       = Some (Str.universal_newlines (FS.content f)).
Proof.
  destruct (backup_holds_text_of_script "calc.py" Sample.fs_crlf
              (fst (fst (AdaptCalc.backup_script_custom "calc.py" Sample.fs_crlf
                           Sample.now0 "calc.py")))
              Sample.now0 "calc_20250306_153012_v1.bak")
    as (f & Hf & Hc & _);
    [vm_compute; reflexivity | vm_compute; reflexivity |].
  exists f. split; [exact Hf | exact Hc].
Defined.

Lemma next_version_is_succ_of_max_witness :
  AdaptCalc.next_iteration "calc.py" Sample.fs_two
  = (1 + NamingScheme.max_version [1; 2])%N
  /\ AdaptCalc.next_iteration "calc.py"
       (delete_files ["calc_20250101_110000_v2.bak"] Sample.fs_two)
     = (1 + NamingScheme.max_version [1])%N.
Proof.
  destruct (next_version_is_succ_of_max "calc.py" Sample.fs_two)
    as (_ & H1 & _ & H2); [vm_compute; reflexivity|].
  split; [exact H1 | exact (proj1 (H2 ["calc_20250101_110000_v2.bak"]))].
Defined.


Lemma list_backup_files_sorted_stable_witness :
  StronglySorted (key_le (FS.getmtime Sample.fs_two))
    (AdaptCalc.list_backup_files "calc.py" Sample.fs_two)
  /\ Permutation (AdaptCalc.list_backup_files "calc.py" Sample.fs_two)
       ["calc_20250101_100000_v1.bak"; "calc_20250101_110000_v2.bak"].
Proof.
  destruct (list_backup_files_sorted_stable "calc.py" Sample.fs_two)
    as (_ & H1 & H2 & _); [vm_compute; reflexivity|].
  split; [exact H2 | exact H1].
Defined.

Lemma empty_new_code_is_rejected_witness :
  AdaptCalc.customize_entire_script "calc.py" true Sample.fs_script Sample.now0
    "``` ```"
  = (Sample.fs_script, EmptyScriptShown).
Proof.
  apply (empty_new_code_is_rejected "calc.py" true Sample.fs_script Sample.now0
           "``` ```").
  vm_compute. reflexivity.
Defined.


(* ================================================================== *)
(** * Beyond the claims: stripping and sanitising *)

Section StripFacts.
  Import Str.

Lemma lstrip_first (s : string) : is_space_char (first_char (lstrip s)) = false.
Proof.
  induction s as [|a s IH]; simpl; [reflexivity|].
  destruct (is_space a) eqn:E; [assumption | simpl; assumption].
Qed.

Lemma lstrip_id (s : string) :
  is_space_char (first_char s) = false -> lstrip s = s.
Proof. destruct s as [|a s]; simpl; [reflexivity | now intros ->]. Qed.

Lemma rstrip_first (s : string) :
  is_space_char (first_char s) = false -> first_char (rstrip s) = first_char s.
Proof.
  destruct s as [|a s]; simpl; [reflexivity|]. intros H.
  destruct (rstrip s); [now rewrite H | reflexivity].
Qed.

Lemma rstrip_cons (a : ascii) (s : string) :
  rstrip (String a s)
  = match rstrip s with
    | EmptyString => if is_space a then EmptyString else String a EmptyString
    | r => String a r
    end.
Proof. reflexivity. Qed.

Lemma rstrip_last (s : string) : is_space_char (last_char (rstrip s)) = false.
Proof.
  induction s as [|a s IH]; [reflexivity|].
  rewrite rstrip_cons. destruct (rstrip s) as [|b r].
  - destruct (is_space a) eqn:E; [reflexivity | simpl; assumption].
  - exact IH.
Qed.

Lemma rstrip_id (s : string) :
  is_space_char (last_char s) = false -> rstrip s = s.
Proof.
  induction s as [|a s IH]; [reflexivity|].
  destruct s as [|b s].
  - simpl. now intros ->.
  - intros H. change (last_char (String a (String b s)))
      with (last_char (String b s)) in H.
    now rewrite rstrip_cons, (IH H).
Qed.

Lemma strip_first (s : string) : is_space_char (first_char (strip s)) = false.
Proof.
  unfold strip. rewrite rstrip_first; apply lstrip_first.
Qed.

Lemma strip_last (s : string) : is_space_char (last_char (strip s)) = false.
Proof. apply rstrip_last. Qed.

Lemma strip_id (s : string) :
  is_space_char (first_char s) = false -> is_space_char (last_char s) = false ->
  strip s = s.
Proof. intros H1 H2. unfold strip. now rewrite lstrip_id, rstrip_id. Qed.

Lemma strip_idem (s : string) : strip (strip s) = strip s.
Proof. apply strip_id; [apply strip_first | apply strip_last]. Qed.

Lemma lstrip_suffix (s : string) : exists x, s = x ++ lstrip s.
Proof.
  induction s as [|a s [x IH]]; simpl; [now exists EmptyString|].
  destruct (is_space a); [|now exists EmptyString].
  exists (String a x). simpl. now rewrite <- IH.
Qed.

Lemma rstrip_prefix (s : string) : exists t, s = rstrip s ++ t.
Proof.
  induction s as [|a s [t IH]]; [now exists EmptyString|].
  rewrite rstrip_cons. destruct (rstrip s) as [|b r] eqn:E.
  - destruct (is_space a).
    + now exists (String a s).
    + exists t. simpl in *. now rewrite <- IH.
  - exists t. simpl in *. now rewrite <- IH.
Qed.

Lemma mem_strip (c : ascii) (s : string) : mem c s = false -> mem c (strip s) = false.
Proof.
  intros H. unfold strip.
  destruct (lstrip_suffix s) as [x Hx].
  destruct (rstrip_prefix (lstrip s)) as [t Ht].
  rewrite Hx, mem_append in H. apply orb_false_iff in H as [_ H].
  rewrite Ht, mem_append in H. now apply orb_false_iff in H as [H _].
Qed.

End StripFacts.

Section FenceFacts.
  Import Str.

Lemma remove_fences_nontick (a : ascii) (s : string) :
  Ascii.eqb a "`" = false -> remove_fences (String a s) = String a (remove_fences s).
Proof.
  intros H. destruct a as [[] [] [] [] [] [] [] []];
    try reflexivity; discriminate H.
Qed.

Lemma has_fence_nontick (a : ascii) (s : string) :
  Ascii.eqb a "`" = false -> has_fence (String a s) = has_fence s.
Proof.
  intros H. destruct a as [[] [] [] [] [] [] [] []];
    try reflexivity; discriminate H.
Qed.

Lemma fence_at_nontick (a : ascii) (s : string) :
  Ascii.eqb a "`" = false -> fence_at (String a s) = false.
Proof. intros H. destruct s as [|b [|c s]]; simpl; now rewrite ?H. Qed.

Lemma remove_fences_eq (s : string) :
  remove_fences s
  = match s with
    | EmptyString => EmptyString
    | String a s' =>
        if fence_at s then remove_fences (drop3 s) else String a (remove_fences s')
    end.
Proof.
  destruct s as [|a s]; [reflexivity|].
  destruct (Ascii.eqb a "`") eqn:Ea;
    [|now rewrite fence_at_nontick, remove_fences_nontick].
  apply Ascii.eqb_eq in Ea. subst a.
  destruct s as [|b s]; [reflexivity|].
  destruct (Ascii.eqb b "`") eqn:Eb.
  - apply Ascii.eqb_eq in Eb. subst b.
    destruct s as [|c s]; [reflexivity|].
    destruct c as [[] [] [] [] [] [] [] []]; reflexivity.
  - destruct b as [[] [] [] [] [] [] [] []];
      try discriminate Eb; destruct s; reflexivity.
Qed.

Lemma has_fence_eq (s : string) :
  has_fence s
  = match s with
    | EmptyString => false
    | String a s' => fence_at s || has_fence s'
    end.
Proof.
  destruct s as [|a s]; [reflexivity|].
  destruct (Ascii.eqb a "`") eqn:Ea;
    [|now rewrite fence_at_nontick, has_fence_nontick].
  apply Ascii.eqb_eq in Ea. subst a.
  destruct s as [|b s]; [reflexivity|].
  destruct (Ascii.eqb b "`") eqn:Eb.
  - apply Ascii.eqb_eq in Eb. subst b.
    destruct s as [|c s]; [reflexivity|].
    destruct c as [[] [] [] [] [] [] [] []]; reflexivity.
  - destruct b as [[] [] [] [] [] [] [] []];
      try discriminate Eb; destruct s; reflexivity.
Qed.

Lemma fence_at_app (x t : string) :
  fence_at x = true -> fence_at (x ++ t) = true.
Proof. destruct x as [|a [|b [|c x]]]; simpl; auto; discriminate. Qed.

Lemma has_fence_app_l (x t : string) :
  has_fence x = true -> has_fence (x ++ t) = true.
Proof.
  induction x as [|a x IH]; [discriminate|].
  rewrite (has_fence_eq (String a x)), (has_fence_eq (String a x ++ t)).
  cbn [append]. intros H. apply orb_true_iff in H as [H | H].
  - change (String a (x ++ t)) with (String a x ++ t).
    now rewrite fence_at_app.
  - rewrite (IH H). apply orb_true_r.
Qed.

Lemma has_fence_app_r (x t : string) :
  has_fence t = true -> has_fence (x ++ t) = true.
Proof.
  intros H. induction x as [|a x IH]; [assumption|].
  rewrite has_fence_eq. cbn [append]. rewrite IH. apply orb_true_r.
Qed.

Lemma has_fence_strip (s : string) :
  has_fence s = false -> has_fence (strip s) = false.
Proof.
  intros H. destruct (has_fence (strip s)) eqn:E; [|reflexivity].
  unfold strip in E.
  destruct (lstrip_suffix s) as [x Hx].
  destruct (rstrip_prefix (lstrip s)) as [t Ht].
  rewrite Hx, has_fence_app_r in H; [discriminate|].
  rewrite Ht. now apply has_fence_app_l.
Qed.

(** After a single backtick the removal never leaves two more. *)
Lemma remove_fences_head (s : string) :
  fence_at (String "`" s) = false ->
  fence_at (String "`" (remove_fences s)) = false.
Proof.
  destruct s as [|b s]; [reflexivity|].
  destruct (Ascii.eqb b "`") eqn:Eb.
  - apply Ascii.eqb_eq in Eb. subst b.
    destruct s as [|c s]; [reflexivity|].
    intros H.
    assert (Hc : Ascii.eqb c "`" = false) by exact H.
    assert (Hf : fence_at (String "`" (String c s)) = false)
      by (destruct s; cbn [fence_at]; now rewrite ?Hc).
    rewrite (remove_fences_eq (String "`" (String c s))), Hf.
    rewrite (remove_fences_nontick c s Hc).
    cbn [fence_at]. now rewrite Hc.
  - intros _. rewrite (remove_fences_nontick b s Eb).
    destruct (remove_fences s); simpl; now rewrite ?Eb.
Qed.

Lemma length_drop3 (a : ascii) (s : string) :
  String.length (drop3 (String a s)) <= String.length s.
Proof. destruct s as [|b [|c s]]; simpl; lia. Qed.

(** [replace("```", "")] leaves no fence behind. *)
Lemma remove_fences_no_fence (s : string) : has_fence (remove_fences s) = false.
Proof.
  assert (H : forall n s, String.length s <= n -> has_fence (remove_fences s) = false).
  { clear s. induction n as [|n IH]; intros [|a s] Hn; try reflexivity;
      simpl in Hn; [lia|].
    rewrite remove_fences_eq. destruct (fence_at (String a s)) eqn:Ef.
    - apply IH. pose proof (length_drop3 a s). lia.
    - rewrite has_fence_eq, (IH s) by lia. rewrite orb_false_r.
      destruct (Ascii.eqb a "`") eqn:Ea; [|now apply fence_at_nontick].
      apply Ascii.eqb_eq in Ea. subst a. now apply remove_fences_head. }
  now apply (H (String.length s)).
Qed.

Lemma remove_fences_id (s : string) :
  has_fence s = false -> remove_fences s = s.
Proof.
  induction s as [|a s IH]; [reflexivity|].
  rewrite has_fence_eq, remove_fences_eq. intros H.
  apply orb_false_iff in H as [H1 H2]. now rewrite H1, IH.
Qed.

Lemma sanitize_script_response_clean_fence (script_code : string) :
  has_fence (AdaptCalc.sanitize_script_response script_code) = false.
Proof. apply has_fence_strip, remove_fences_no_fence. Qed.

(** X1.  The sanitised answer of the model holds no triple backtick and
    no white space at either end, and sanitising it again changes
    nothing. *)
Theorem sanitize_script_response_clean (script_code : string) :
  has_fence (AdaptCalc.sanitize_script_response script_code) = false
  /\ is_space_char (first_char (AdaptCalc.sanitize_script_response script_code))
     = false
  /\ is_space_char (last_char (AdaptCalc.sanitize_script_response script_code))
     = false
  /\ AdaptCalc.sanitize_script_response
       (AdaptCalc.sanitize_script_response script_code)
     = AdaptCalc.sanitize_script_response script_code.
Proof.
  unfold AdaptCalc.sanitize_script_response.
  assert (H : has_fence (strip (remove_fences script_code)) = false)
    by apply has_fence_strip, remove_fences_no_fence.
  split; [assumption|]. split; [apply strip_first|]. split; [apply strip_last|].
  now rewrite (remove_fences_id _ H), strip_idem.
Qed.

End FenceFacts.

(* ================================================================== *)
(** * Beyond the claims: the name of the script *)

Section ScriptName.
  Import Str.

Lemma rsplit1_head_append (c : ascii) (x r : string) :
  mem c r = false -> rsplit1_head c (x ++ String c r) = x.
Proof.
  intros Hr. induction x as [|a x IH]; simpl.
  - now rewrite Hr, Ascii.eqb_refl.
  - rewrite mem_append. simpl. rewrite Ascii.eqb_refl, orb_true_r. now rewrite IH.
Qed.

(** X2.  [get_script_name] drops the directories and the last extension
    of the path of the script, and nothing else: a stem with dots in it
    keeps them, and a name without a dot is returned whole. *)
Theorem get_script_name_drops_directory_and_extension (dir stem ext : string) :
  mem "/" stem = false -> mem "/" ext = false -> mem "." ext = false ->
  AdaptCalc.get_script_name (dir ++ "/" ++ stem ++ "." ++ ext) = stem
  /\ AdaptCalc.get_script_name (stem ++ "." ++ ext) = stem
  /\ (mem "." stem = false ->
      AdaptCalc.get_script_name (dir ++ "/" ++ stem) = stem
      /\ AdaptCalc.get_script_name stem = stem).
Proof.
  intros Hs He Hd.
  assert (Hrest : mem "/" (stem ++ String "." ext) = false)
    by (rewrite mem_append; simpl; now rewrite Hs, He).
  assert (Hdot : mem "." (stem ++ String "." ext) = true)
    by (rewrite mem_append; simpl; apply orb_true_r).
  unfold AdaptCalc.get_script_name. repeat split.
  - change (dir ++ "/" ++ stem ++ "." ++ ext)
      with (dir ++ String "/" (stem ++ String "." ext)).
    rewrite (after_last_append _ _ _ Hrest), Hdot.
    now apply rsplit1_head_append.
  - change (stem ++ "." ++ ext) with (stem ++ String "." ext).
    rewrite (after_last_id _ _ Hrest), Hdot.
    now apply rsplit1_head_append.
  - change (dir ++ "/" ++ stem) with (dir ++ String "/" stem).
    now rewrite (after_last_append _ _ _ Hs), H.
  - now rewrite (after_last_id _ _ Hs), H.
Qed.

End ScriptName.

(* ================================================================== *)
(** * Beyond the claims: what a write does to the file system *)

Section WriteEffects.
  Import FS.

Lemma update_absent (p : string) (g : file -> file) (l : list (string * file)) :
  assoc p l = None -> update p g l = l.
Proof.
  induction l as [|[r f] l IH]; simpl; [reflexivity|].
  destruct (String.eqb r p); [discriminate|]. intros H. now rewrite IH.
Qed.

Lemma update_app (p : string) (g : file -> file) (l l' : list (string * file)) :
  update p g (l ++ l') = (update p g l ++ update p g l')%list.
Proof. apply map_app. Qed.

Lemma update_update (p : string) (g h : file -> file) (l : list (string * file)) :
  update p g (update p h l) = update p (fun f => g (h f)) l.
Proof.
  unfold update. rewrite map_map. apply map_ext. intros [r f]. simpl.
  destruct (String.eqb r p) eqn:E; simpl; now rewrite E.
Qed.

(** Writing a file that is there and writable changes that file alone,
    in place. *)
Lemma write_text_existing (fs : t) (now : Z) (p text : string) (f : file) :
  lookup fs p = Some f -> writable f = true ->
  write_text fs now p text
  = ({| entries := update p (set_content text now) (entries fs);
        creatable := creatable fs |}, None).
Proof.
  intros Hf Hw. unfold write_text, open_w, write. rewrite Hf, Hw. simpl.
  now rewrite update_update.
Qed.

Lemma write_text_readonly (fs : t) (now : Z) (p text : string) (f : file) :
  lookup fs p = Some f -> writable f = false ->
  write_text fs now p text = (fs, Some PermissionError).
Proof. intros Hf Hw. unfold write_text, open_w. now rewrite Hf, Hw. Qed.

(** Writing a file that is not there creates it, last in the
    enumeration, where that is permitted. *)
Lemma write_text_missing (fs : t) (now : Z) (p text : string) :
  lookup fs p = None ->
  write_text fs now p text
  = if creatable fs
    then ({| entries := entries fs ++ [(p, set_content text now (new_file now))];
             creatable := creatable fs |}, None)
    else (fs, Some PermissionError).
Proof.
  intros Hf. unfold write_text, open_w, write. rewrite Hf.
  destruct (creatable fs); [|reflexivity]. simpl.
  rewrite update_app, (update_absent _ _ _ Hf). simpl.
  now rewrite String.eqb_refl.
Qed.

(** A copy to a name that is not there, when it raises nothing, appends
    one file that holds the text of the source. *)
Lemma copy_text_success_fresh (fs : t) (now : Z) (src dst : string) :
  snd (copy_text fs now src dst) = None -> lookup fs dst = None ->
  exists f, lookup fs src = Some f /\ readable f = true /\ decodable f = true
    /\ creatable fs = true
    /\ fst (copy_text fs now src dst)
       = {| entries := (entries fs
                        ++ [(dst, set_content (Str.universal_newlines (content f))
                                    now (new_file now))])%list;
            creatable := creatable fs |}.
Proof.
  unfold copy_text, open_r, open_w, read, write. intros H Hd. rewrite Hd in *.
  destruct (lookup fs src) as [f|] eqn:Hf; [|discriminate].
  destruct (readable f) eqn:Hr; [|discriminate].
  destruct (creatable fs) eqn:Hc; [|discriminate].
  unfold lookup in *. cbn [entries] in *. rewrite assoc_app, Hf in *.
  destruct (decodable f) eqn:Hdec; [|discriminate].
  exists f. do 4 (split; [reflexivity || assumption|]).
  cbn [fst entries creatable].
  rewrite update_app, (update_absent _ _ _ Hd). simpl.
  now rewrite String.eqb_refl.
Qed.

(** A copy that raises leaves the file system as it was, or, when it is
    the read that raises, with the destination emptied or created. *)
Lemma copy_text_failure (fs : t) (now : Z) (src dst : string) (e : error) :
  snd (copy_text fs now src dst) = Some e ->
  fst (copy_text fs now src dst) = fs
  \/ open_w fs now dst = inr (fst (copy_text fs now src dst)).
Proof.
  destruct (copy_text_cases fs now src dst)
    as [[e' E] | (fs1 & _ & Hw & [(e' & _ & E) | (text & _ & E)])];
    rewrite E; cbn [fst snd]; intros H; try discriminate; auto.
Qed.

End WriteEffects.

(* ================================================================== *)
(** * Beyond the claims: the whole effect of a backup *)

Section BackupEffects.
  Import Str.
  Variable script_path : string.

Lemma listed_version_below_next (fs : FS.t) (b : string) :
  In b (AdaptCalc.list_backup_files script_path fs) ->
  (NamingScheme.extractVersion b < AdaptCalc.next_iteration script_path fs)%N.
Proof.
  intros Hb. rewrite next_iteration_max.
  pose proof (max_version_ge _ _ (in_map NamingScheme.extractVersion _ _ Hb)).
  lia.
Qed.

Lemma listed_neq_backup_name (fs : FS.t) (now : instant) (b : string) :
  In b (AdaptCalc.list_backup_files script_path fs) ->
  b <> AdaptCalc.get_next_backup_filename script_path fs now.
Proof.
  intros Hb ->. apply listed_version_below_next in Hb.
  rewrite extractVersion_backup_name in Hb. lia.
Qed.

Lemma listed_exists (fs : FS.t) (b : string) :
  In b (AdaptCalc.list_backup_files script_path fs) ->
  exists f, FS.lookup fs b = Some f.
Proof.
  intros Hb. apply in_list_backup_files in Hb as [Hb _].
  apply in_listdir in Hb as [Hb _]. now apply assoc_in_some.
Qed.

Lemma prefixed_neq_script (r : string) :
  mem "/" (AdaptCalc.get_script_name script_path ++ String "_" r) = false ->
  AdaptCalc.get_script_name script_path ++ String "_" r <> script_path.
Proof.
  intros Hs Heq.
  destruct (mem "/" script_path) eqn:Eslash; [rewrite Heq in Hs; congruence|].
  revert Heq. unfold AdaptCalc.get_script_name.
  rewrite (after_last_id _ _ Eslash).
  destruct (mem "." script_path) eqn:Edot; intros Heq.
  - destruct (rsplit1_head_split _ _ Edot) as [ext Hext].
    pose proof (eq_trans Heq Hext) as H.
    apply append_inv_head in H. discriminate.
  - apply (f_equal String.length) in Heq.
    rewrite length_append in Heq. simpl in Heq. lia.
Qed.

(** The script is never one of the backups listed. *)
Lemma listed_neq_script (fs : FS.t) (b : string) :
  In b (AdaptCalc.list_backup_files script_path fs) -> b <> script_path.
Proof.
  intros Hb. apply in_list_backup_files in Hb as [Hdir Hacc].
  apply in_listdir in Hdir as [_ Hslash].
  destruct Hacc as (f' & nl & -> & (d & t & v & -> & _) & _).
  revert Hslash.
  replace ((AdaptCalc.get_script_name script_path ++ "_" ++ d ++ "_" ++ t
            ++ "_v" ++ v ++ ".bak") ++ nl)
    with (AdaptCalc.get_script_name script_path
          ++ String "_" (d ++ "_" ++ t ++ "_v" ++ v ++ ".bak" ++ nl))
    by (repeat (rewrite append_assoc; simpl); reflexivity).
  apply prefixed_neq_script.
Qed.

(** The name chosen for a backup is the name of no file. *)
Lemma backup_name_fresh (fs : FS.t) (now : instant) :
  four_digit_year (wall now) = true ->
  FS.lookup fs (AdaptCalc.get_next_backup_filename script_path fs now) = None.
Proof.
  intros Hy.
  destruct (FS.lookup fs (AdaptCalc.get_next_backup_filename script_path fs now))
    as [f|] eqn:E; [exfalso | reflexivity].
  apply assoc_some_in in E.
  assert (Hin : In (AdaptCalc.get_next_backup_filename script_path fs now)
                  (AdaptCalc.list_backup_files script_path fs)).
  { apply in_list_backup_files. split; [|now apply backup_name_accepted].
    apply in_listdir. split; [assumption | apply backup_name_no_slash]. }
  now apply (listed_neq_backup_name fs now) in Hin.
Qed.

(** X3.  What a backup does to the disk, in full, for a base name
    without a character that [re] treats specially and at a four-digit
    year.  The name it chooses is the name of no file.  When it raises
    nothing, the files on disk are the old ones and one more, under that
    name, holding the text of the script; every other path names the file
    it named.  When it raises, the file system is as it was, unless the
    script did not decode: then the new file is there, empty, and nothing
    else has changed.  (Where the directory enumerates the new file is
    not said.) *)
Theorem backup_adds_one_file_or_nothing (fs fs1 : FS.t) (now : instant)
  (name : string) (warning : option FS.error) :
  Re.plain (AdaptCalc.get_script_name script_path) = true ->
  four_digit_year (wall now) = true ->
  AdaptCalc.backup_script_custom script_path fs now script_path
  = (fs1, name, warning) ->
  FS.lookup fs name = None
  /\ (forall q, q <> name -> FS.lookup fs1 q = FS.lookup fs q)
  /\ match warning with
     | None =>
         exists f,
           FS.lookup fs script_path = Some f
           /\ FS.lookup fs1 name
              = Some (FS.set_content (universal_newlines (FS.content f))
                        (stamp now) (FS.new_file (stamp now)))
           /\ Permutation (FS.entries fs1)
                ((name, FS.set_content (universal_newlines (FS.content f))
                          (stamp now) (FS.new_file (stamp now)))
                 :: FS.entries fs)
     | Some e =>
         fs1 = fs
         \/ (e = FS.UnicodeDecodeError
             /\ FS.lookup fs1 name = Some (FS.new_file (stamp now))
             /\ Permutation (FS.entries fs1)
                  ((name, FS.new_file (stamp now)) :: FS.entries fs))
     end.
Proof.
  intros _ Hy Hbk.
  assert (Hframe : forall q, q <> name -> FS.lookup fs1 q = FS.lookup fs q)
    by (intros q Hq; now apply (backup_frame _ _ _ _ _ _ _ Hbk)).
  revert Hbk. rewrite backup_script_custom_eq. intros H.
  injection H as <- <- <-.
  pose proof (backup_name_fresh fs now Hy) as Hfresh.
  split; [assumption|]. split; [assumption|]. clear Hframe.
  set (name := AdaptCalc.get_next_backup_filename script_path fs now) in *.
  assert (Hlast : forall h,
            FS.lookup {| FS.entries := (FS.entries fs ++ [(name, h)])%list;
                         FS.creatable := FS.creatable fs |} name = Some h).
  { intros h. unfold FS.lookup in *. cbn [FS.entries].
    rewrite assoc_app, Hfresh. simpl. now rewrite String.eqb_refl. }
  destruct (snd (FS.copy_text fs (stamp now) script_path name)) as [e|] eqn:Hw.
  - destruct (copy_text_cases fs (stamp now) script_path name)
      as [[e' E] | (fs1 & Hr & Ho & [(e' & Hrd & E) | (text & _ & E)])];
      rewrite E in *; cbn [fst snd] in *; try discriminate; [now left|].
    right. injection Hw as <-.
    unfold FS.open_w in Ho. rewrite Hfresh in Ho.
    destruct (FS.creatable fs) eqn:Hc; [|discriminate]. injection Ho as <-.
    split; [|split].
    + unfold FS.open_r in Hr. unfold FS.read, FS.lookup in *.
      cbn [FS.entries] in Hrd. rewrite assoc_app in Hrd.
      destruct (FS.assoc script_path (FS.entries fs)) as [f|]; [|discriminate].
      destruct (FS.decodable f); [discriminate | now injection Hrd].
    + rewrite <- Hc. apply Hlast.
    + cbn [FS.entries]. symmetry. apply Permutation_cons_append.
  - destruct (copy_text_success_fresh _ _ _ _ Hw Hfresh)
      as (f & Hf & _ & _ & _ & E).
    exists f. split; [assumption|]. rewrite E. split; [apply Hlast|].
    cbn [FS.entries]. symmetry. apply Permutation_cons_append.
Qed.

Lemma names_write_text (fs : FS.t) (now : Z) (p text q : string) :
  In q (map fst (FS.entries fs)) ->
  In q (map fst (FS.entries (fst (FS.write_text fs now p text)))).
Proof.
  intros Hq. unfold FS.write_text.
  destruct (FS.open_w fs now p) as [e|fs1] eqn:Hw; cbn [fst]; [assumption|].
  rewrite names_write. apply (names_open_w _ _ _ _ Hw). now left.
Qed.

(** A listed backup stays listed where no name is lost. *)
Lemma listed_stays_listed (fs fs' : FS.t) (b : string) :
  (forall q, In q (map fst (FS.entries fs)) -> In q (map fst (FS.entries fs'))) ->
  In b (AdaptCalc.list_backup_files script_path fs) ->
  In b (AdaptCalc.list_backup_files script_path fs').
Proof.
  intros Hnames. rewrite !in_list_backup_files, !in_listdir.
  intros [[H1 H2] H3]. auto.
Qed.

Lemma next_iteration_mono (fs fs' : FS.t) :
  (forall b, In b (AdaptCalc.list_backup_files script_path fs) ->
             In b (AdaptCalc.list_backup_files script_path fs')) ->
  (AdaptCalc.next_iteration script_path fs
   <= AdaptCalc.next_iteration script_path fs')%N.
Proof.
  intros H. rewrite !next_iteration_max.
  assert (NamingScheme.max_version
            (map NamingScheme.extractVersion
               (AdaptCalc.list_backup_files script_path fs))
          <= NamingScheme.max_version
               (map NamingScheme.extractVersion
                  (AdaptCalc.list_backup_files script_path fs')))%N; [|lia].
  apply max_version_le. intros v Hv. apply in_map_iff in Hv as (b & <- & Hb).
  apply max_version_ge, in_map, H, Hb.
Qed.

Lemma overwrite_self_names (exec_ok : bool) (fs : FS.t) (now : instant)
  (new_code q : string) :
  In q (map fst (FS.entries fs)) ->
  In q (map fst (FS.entries
                   (fst (AdaptCalc.overwrite_self script_path exec_ok fs now
                           new_code)))).
Proof.
  intros Hq.
  destruct (AdaptCalc.backup_script_custom script_path fs now script_path)
    as [[fs1 name] warning] eqn:Hb.
  rewrite (overwrite_self_eq _ _ _ _ _ _ _ _ Hb), overwrite_step_fst.
  apply names_write_text. now apply (backup_names _ _ _ _ _ _ q Hb).
Qed.

Lemma revert_to_backup_names (exec_ok : bool) (fs : FS.t) (now : instant)
  (backup_filename q : string) :
  In q (map fst (FS.entries fs)) ->
  In q (map fst (FS.entries
                   (fst (AdaptCalc.revert_to_backup script_path exec_ok fs now
                           backup_filename)))).
Proof.
  intros Hq.
  destruct (AdaptCalc.backup_script_custom script_path fs now script_path)
    as [[fs1 name] warning] eqn:Hb.
  rewrite (revert_to_backup_eq _ _ _ _ _ _ _ _ Hb), restore_step_fst.
  apply copy_text_names. now apply (backup_names _ _ _ _ _ _ q Hb).
Qed.

Lemma overwrite_self_frame (exec_ok : bool) (fs : FS.t) (now : instant)
  (new_code b : string) :
  In b (AdaptCalc.list_backup_files script_path fs) ->
  FS.lookup (fst (AdaptCalc.overwrite_self script_path exec_ok fs now new_code)) b
  = FS.lookup fs b.
Proof.
  intros Hin.
  destruct (AdaptCalc.backup_script_custom script_path fs now script_path)
    as [[fs1 name] warning] eqn:Hb.
  rewrite (overwrite_self_eq _ _ _ _ _ _ _ _ Hb), overwrite_step_fst.
  rewrite write_text_frame by now apply (listed_neq_script fs).
  apply (backup_frame _ _ _ _ _ _ _ Hb).
  rewrite backup_script_custom_eq in Hb. injection Hb as _ <- _.
  now apply listed_neq_backup_name.
Qed.

Lemma revert_to_backup_frame (exec_ok : bool) (fs : FS.t) (now : instant)
  (backup_filename b : string) :
  In b (AdaptCalc.list_backup_files script_path fs) ->
  FS.lookup
    (fst (AdaptCalc.revert_to_backup script_path exec_ok fs now backup_filename)) b
  = FS.lookup fs b.
Proof.
  intros Hin.
  destruct (AdaptCalc.backup_script_custom script_path fs now script_path)
    as [[fs1 name] warning] eqn:Hb.
  rewrite (revert_to_backup_eq _ _ _ _ _ _ _ _ Hb), restore_step_fst.
  rewrite copy_text_frame by now apply (listed_neq_script fs).
  apply (backup_frame _ _ _ _ _ _ _ Hb).
  rewrite backup_script_custom_eq in Hb. injection Hb as _ <- _.
  now apply listed_neq_backup_name.
Qed.

(** X4.  Replace and revert never delete or alter a backup that is
    listed: after either, it is still listed and is the same file, and
    the next version has not gone down. *)
Theorem listed_backups_survive (exec_ok : bool) (fs : FS.t) (now : instant)
  (text b : string) :
  Re.plain (AdaptCalc.get_script_name script_path) = true ->
  In b (AdaptCalc.list_backup_files script_path fs) ->
  (In b (AdaptCalc.list_backup_files script_path
           (fst (AdaptCalc.overwrite_self script_path exec_ok fs now text)))
   /\ FS.lookup (fst (AdaptCalc.overwrite_self script_path exec_ok fs now text)) b
      = FS.lookup fs b
   /\ (AdaptCalc.next_iteration script_path fs
       <= AdaptCalc.next_iteration script_path
            (fst (AdaptCalc.overwrite_self script_path exec_ok fs now text)))%N)
  /\ (In b (AdaptCalc.list_backup_files script_path
              (fst (AdaptCalc.revert_to_backup script_path exec_ok fs now text)))
      /\ FS.lookup
           (fst (AdaptCalc.revert_to_backup script_path exec_ok fs now text)) b
         = FS.lookup fs b
      /\ (AdaptCalc.next_iteration script_path fs
          <= AdaptCalc.next_iteration script_path
               (fst (AdaptCalc.revert_to_backup script_path exec_ok fs now text)))%N).
Proof.
  intros _ Hin. split; (split; [|split]).
  - eapply listed_stays_listed; [|exact Hin].
    intros q. apply overwrite_self_names.
  - now apply overwrite_self_frame.
  - apply next_iteration_mono. intros b'. apply listed_stays_listed.
    intros q. apply overwrite_self_names.
  - eapply listed_stays_listed; [|exact Hin].
    intros q. apply revert_to_backup_names.
  - now apply revert_to_backup_frame.
  - apply next_iteration_mono. intros b'. apply listed_stays_listed.
    intros q. apply revert_to_backup_names.
Qed.

End BackupEffects.

(* ================================================================== *)
(** * Beyond the claims: what replace and revert leave on disk *)

Section CopyEffects.
  Import FS.

(** A copy between two files that are there, the source readable and
    decodable, the destination writable, changes the destination alone,
    in place. *)
Lemma copy_text_existing (fs : t) (now : Z) (src dst : string) (f g : file) :
  src <> dst ->
  lookup fs src = Some f -> readable f = true -> decodable f = true ->
  lookup fs dst = Some g -> writable g = true ->
  copy_text fs now src dst
  = ({| entries := update dst (set_content (Str.universal_newlines (content f)) now)
                     (entries fs);
        creatable := creatable fs |}, None).
Proof.
  intros Hne Hf Hr Hd Hg Hw.
  unfold copy_text, open_r, open_w, read, write. rewrite Hf, Hr, Hg, Hw.
  unfold lookup in *. cbn [entries creatable].
  apply String.eqb_neq in Hne. rewrite assoc_update, Hne, Hf, Hd.
  now rewrite update_update.
Qed.

(** A copy of a file onto itself empties it: the file is truncated when
    it is opened for writing, before it is read. *)
Lemma copy_text_onto_itself (fs : t) (now : Z) (p : string) (f : file) :
  lookup fs p = Some f -> readable f = true -> writable f = true ->
  copy_text fs now p p
  = ({| entries := update p (set_content EmptyString now) (entries fs);
        creatable := creatable fs |}, None).
Proof.
  intros Hf Hr Hw.
  unfold copy_text, open_r, open_w, read, write. rewrite Hf, Hr, Hw.
  unfold lookup in *. cbn [entries creatable].
  rewrite assoc_update, String.eqb_refl, Hf. simpl.
  now rewrite update_update.
Qed.

(** A copy from a file that is there never raises [FileNotFoundError]. *)
Lemma copy_text_found (fs : t) (now : Z) (src dst : string) (f : file) :
  src <> dst -> lookup fs src = Some f ->
  snd (copy_text fs now src dst) <> Some FileNotFoundError.
Proof.
  intros Hne Hf.
  unfold copy_text, open_r. rewrite Hf.
  destruct (readable f); [|discriminate].
  destruct (open_w fs now dst) as [e|fs1] eqn:Hw.
  - unfold open_w in Hw. destruct (lookup fs dst) as [g|].
    + destruct (writable g); [discriminate|]. injection Hw as <-. discriminate.
    + destruct (creatable fs); [discriminate|]. injection Hw as <-. discriminate.
  - unfold read. rewrite (lookup_open_w_other _ _ _ _ _ Hw Hne), Hf.
    destruct (decodable f); discriminate.
Qed.

Lemma lookup_updated (fs : t) (p : string) (g : file -> file) (f : file) :
  lookup fs p = Some f ->
  lookup {| entries := update p g (entries fs); creatable := creatable fs |} p
  = Some (g f).
Proof.
  intros Hf. unfold lookup in *. cbn [entries].
  now rewrite assoc_update, String.eqb_refl, Hf.
Qed.

Lemma lookup_updated_other (fs : t) (p q : string) (g : file -> file) :
  q <> p ->
  lookup {| entries := update p g (entries fs); creatable := creatable fs |} q
  = lookup fs q.
Proof.
  intros Hq. apply String.eqb_neq in Hq. unfold lookup. cbn [entries].
  now rewrite assoc_update, Hq.
Qed.

End CopyEffects.

Section Controllers2.
  Import Str.
  Variable script_path : string.

(** Revert to a listed backup that can be read, with a script that can
    be written. *)
Lemma revert_listed_effect (exec_ok : bool) (fs : FS.t) (now : instant)
  (b : string) (fb fscript : FS.file) :
  In b (AdaptCalc.list_backup_files script_path fs) ->
  FS.lookup fs b = Some fb -> FS.readable fb = true -> FS.decodable fb = true ->
  FS.lookup fs script_path = Some fscript -> FS.writable fscript = true ->
  snd (AdaptCalc.revert_to_backup script_path exec_ok fs now b)
  = AdaptCalc.restart exec_ok
  /\ content_at (fst (AdaptCalc.revert_to_backup script_path exec_ok fs now b))
       script_path
     = Some (universal_newlines (FS.content fb))
  /\ FS.lookup (fst (AdaptCalc.revert_to_backup script_path exec_ok fs now b)) b
     = Some fb.
Proof.
  intros Hin Hb Hr Hd Hs Hw.
  pose proof (revert_to_backup_frame script_path exec_ok fs now b b Hin) as Hkeep.
  rewrite Hb in Hkeep. revert Hkeep.
  destruct (AdaptCalc.backup_script_custom script_path fs now script_path)
    as [[fs1 name] warning] eqn:Hbk.
  rewrite (revert_to_backup_eq _ _ _ _ _ _ _ _ Hbk).
  assert (Hb1 : FS.lookup fs1 b = Some fb).
  { rewrite (backup_frame _ _ _ _ _ _ _ Hbk); [assumption|].
    rewrite backup_script_custom_eq in Hbk. injection Hbk as _ <- _.
    now apply listed_neq_backup_name. }
  assert (Hs1 : FS.lookup fs1 script_path = Some fscript)
    by now rewrite (backup_keeps_script _ _ _ _ _ _ Hbk).
  unfold AdaptCalc.restore_step.
  rewrite (copy_text_existing fs1 (stamp now) b script_path fb fscript
             (listed_neq_script script_path fs b Hin) Hb1 Hr Hd Hs1 Hw).
  cbn [fst snd]. intros Hkeep.
  split; [reflexivity|]. split; [|assumption].
  unfold content_at. now rewrite (lookup_updated _ _ _ _ Hs1).
Qed.

(** X5.  For a base name without a character that [re] treats
    specially: a name taken from the listing is a file on disk, and it is
    still there, the same file, when revert opens it after its own backup
    step, so that this [open] does not fail for a missing file.  When
    that backup can be read and the script can be written, the script
    then holds the text of the backup, the backup is as it was, and what
    is shown depends on the restart alone. *)
Theorem revert_to_listed_backup (exec_ok : bool) (fs : FS.t) (now : instant)
  (b : string) :
  Re.plain (AdaptCalc.get_script_name script_path) = true ->
  In b (AdaptCalc.list_backup_files script_path fs) ->
  (exists fb,
     FS.lookup fs b = Some fb
     /\ FS.lookup
          (fst (fst (AdaptCalc.backup_script_custom script_path fs now
                       script_path)))
          b
        = Some fb
     /\ FS.open_r
          (fst (fst (AdaptCalc.backup_script_custom script_path fs now
                       script_path)))
          b
        <> Some FS.FileNotFoundError)
  /\ forall fb fscript,
       FS.lookup fs b = Some fb ->
       FS.readable fb = true -> FS.decodable fb = true ->
       FS.lookup fs script_path = Some fscript -> FS.writable fscript = true ->
       snd (AdaptCalc.revert_to_backup script_path exec_ok fs now b)
       = AdaptCalc.restart exec_ok
       /\ content_at
            (fst (AdaptCalc.revert_to_backup script_path exec_ok fs now b))
            script_path
          = Some (universal_newlines (FS.content fb))
       /\ FS.lookup
            (fst (AdaptCalc.revert_to_backup script_path exec_ok fs now b)) b
          = Some fb.
Proof.
  intros _ Hin. split; [|intros fb fscript; now apply revert_listed_effect].
  destruct (listed_exists script_path fs b Hin) as [fb Hb].
  exists fb. split; [assumption|].
  destruct (AdaptCalc.backup_script_custom script_path fs now script_path)
    as [[fs1 name] warning] eqn:Hbk. cbn [fst].
  assert (Hb1 : FS.lookup fs1 b = Some fb).
  { rewrite (backup_frame _ _ _ _ _ _ _ Hbk); [assumption|].
    rewrite backup_script_custom_eq in Hbk. injection Hbk as _ <- _.
    now apply listed_neq_backup_name. }
  split; [assumption|].
  unfold FS.open_r. rewrite Hb1. destruct (FS.readable fb); discriminate.
Qed.

(** X6.  Replace, whatever became of its backup: with a script that can
    be written the new code is on disk, byte for byte, and what is shown
    depends on the restart alone, so a restart that fails leaves the new
    code in place; with a script that cannot be written the permission
    error is shown and the script is as it was. *)
Theorem overwrite_self_outcome (exec_ok : bool) (fs : FS.t) (now : instant)
  (new_code : string) (f : FS.file) :
  Re.plain (AdaptCalc.get_script_name script_path) = true ->
  FS.lookup fs script_path = Some f ->
  (FS.writable f = true ->
   snd (AdaptCalc.overwrite_self script_path exec_ok fs now new_code)
   = AdaptCalc.restart exec_ok
   /\ content_at (fst (AdaptCalc.overwrite_self script_path exec_ok fs now new_code))
        script_path
      = Some new_code)
  /\ (FS.writable f = false ->
      snd (AdaptCalc.overwrite_self script_path exec_ok fs now new_code)
      = ErrorShown FS.PermissionError
      /\ FS.lookup
           (fst (AdaptCalc.overwrite_self script_path exec_ok fs now new_code))
           script_path
         = Some f).
Proof.
  intros _ Hf.
  destruct (AdaptCalc.backup_script_custom script_path fs now script_path)
    as [[fs1 name] warning] eqn:Hbk.
  rewrite (overwrite_self_eq _ _ _ _ _ _ _ _ Hbk).
  assert (Hf1 : FS.lookup fs1 script_path = Some f)
    by now rewrite (backup_keeps_script _ _ _ _ _ _ Hbk).
  unfold AdaptCalc.overwrite_step. split; intros Hw.
  - rewrite (write_text_existing _ _ _ _ _ Hf1 Hw). cbn [fst snd].
    split; [reflexivity|]. unfold content_at.
    now rewrite (lookup_updated _ _ _ _ Hf1).
  - rewrite (write_text_readonly _ _ _ _ _ Hf1 Hw). now split.
Qed.

(** X7.  Revert called with the path of the script itself leaves the
    script empty: the script is truncated when it is opened for writing,
    before it is read. *)
Theorem revert_to_script_itself_empties_it (exec_ok : bool) (fs : FS.t)
  (now : instant) (f : FS.file) :
  Re.plain (AdaptCalc.get_script_name script_path) = true ->
  FS.lookup fs script_path = Some f ->
  FS.readable f = true -> FS.writable f = true ->
  content_at (fst (AdaptCalc.revert_to_backup script_path exec_ok fs now script_path))
    script_path
  = Some EmptyString
  /\ snd (AdaptCalc.revert_to_backup script_path exec_ok fs now script_path)
     = AdaptCalc.restart exec_ok.
Proof.
  intros _ Hf Hr Hw.
  destruct (AdaptCalc.backup_script_custom script_path fs now script_path)
    as [[fs1 name] warning] eqn:Hbk.
  rewrite (revert_to_backup_eq _ _ _ _ _ _ _ _ Hbk).
  assert (Hf1 : FS.lookup fs1 script_path = Some f)
    by now rewrite (backup_keeps_script _ _ _ _ _ _ Hbk).
  unfold AdaptCalc.restore_step.
  rewrite (copy_text_onto_itself _ _ _ _ Hf1 Hr Hw). cbn [fst snd].
  split; [|reflexivity]. unfold content_at.
  now rewrite (lookup_updated _ _ _ _ Hf1).
Qed.

(** X8.  For a base name without a character that [re] treats
    specially, and at a four-digit year: replace and then revert to the
    backup that replace made give back the text the script had.  After a
    replace whose backup succeeded the new code is on disk and the backup
    is listed, and revert called with the name of that backup, at any
    later instant, leaves the text of the old script in the script. *)
Theorem replace_then_revert_restores (exec_ok : bool) (fs fs1 : FS.t)
  (now : instant) (name new_code : string) (f : FS.file) :
  Re.plain (AdaptCalc.get_script_name script_path) = true ->
  four_digit_year (wall now) = true ->
  AdaptCalc.backup_script_custom script_path fs now script_path
  = (fs1, name, None) ->
  FS.lookup fs script_path = Some f -> FS.writable f = true ->
  content_at (fst (AdaptCalc.overwrite_self script_path exec_ok fs now new_code))
    script_path
  = Some new_code
  /\ In name
       (AdaptCalc.list_backup_files script_path
          (fst (AdaptCalc.overwrite_self script_path exec_ok fs now new_code)))
  /\ forall (exec_ok' : bool) (later : instant),
       content_at
         (fst (AdaptCalc.revert_to_backup script_path exec_ok'
                 (fst (AdaptCalc.overwrite_self script_path exec_ok fs now
                         new_code))
                 later name))
         script_path
       = Some (universal_newlines (FS.content f)).
Proof.
  intros _ Hy Hbk Hf Hw.
  destruct (backup_success _ _ _ _ _ Hbk) as (Hname & _ & _ & _ & _ & _ & _ & Hin1).
  pose proof (backup_name_fresh script_path fs now Hy) as Hfresh.
  rewrite <- Hname in Hfresh.
  assert (Hok : snd (FS.copy_text fs (stamp now) script_path name) = None)
    by (rewrite backup_script_custom_eq in Hbk; rewrite Hname;
        now injection Hbk as _ _ ->).
  destruct (copy_text_success_fresh _ _ _ _ Hok Hfresh)
    as (f' & Hf' & _ & _ & _ & E).
  rewrite Hf in Hf'. injection Hf' as <-.
  assert (Efs1 : fs1 = fst (FS.copy_text fs (stamp now) script_path name))
    by (rewrite backup_script_custom_eq in Hbk; rewrite Hname;
        now injection Hbk as <- _ _).
  assert (Hne : name <> script_path)
    by (rewrite Hname; apply backup_name_neq_script).
  assert (Hn1 : FS.lookup fs1 name
                = Some (FS.set_content (universal_newlines (FS.content f))
                          (stamp now) (FS.new_file (stamp now)))).
  { rewrite Efs1, E. unfold FS.lookup. cbn [FS.entries].
    unfold FS.lookup in Hfresh. rewrite assoc_app, Hfresh. simpl.
    now rewrite String.eqb_refl. }
  assert (Hf1 : FS.lookup fs1 script_path = Some f)
    by now rewrite (backup_keeps_script _ _ _ _ _ _ Hbk).
  set (fs2 := fst (AdaptCalc.overwrite_self script_path exec_ok fs now new_code)).
  assert (Efs2 : fs2 = {| FS.entries :=
                            FS.update script_path
                              (FS.set_content new_code (stamp now))
                              (FS.entries fs1);
                          FS.creatable := FS.creatable fs1 |}).
  { unfold fs2. rewrite (overwrite_self_eq _ _ _ _ _ _ _ _ Hbk), overwrite_step_fst.
    now rewrite (write_text_existing _ _ _ _ _ Hf1 Hw). }
  assert (Hs2 : FS.lookup fs2 script_path
                = Some (FS.set_content new_code (stamp now) f))
    by (rewrite Efs2; now apply lookup_updated).
  assert (Hn2 : FS.lookup fs2 name
                = Some (FS.set_content (universal_newlines (FS.content f))
                          (stamp now) (FS.new_file (stamp now))))
    by (rewrite Efs2, lookup_updated_other; assumption).
  assert (Hin2 : In name (AdaptCalc.list_backup_files script_path fs2)).
  { apply in_list_backup_files. split.
    - apply in_listdir. split.
      + rewrite Efs2. cbn [FS.entries]. now rewrite map_fst_update.
      + rewrite Hname. apply backup_name_no_slash.
    - rewrite Hname. now apply backup_name_accepted. }
  split; [unfold content_at; now rewrite Hs2|]. split; [assumption|].
  intros exec_ok' later.
  destruct (revert_listed_effect exec_ok' fs2 later name _ _ Hin2 Hn2
              eq_refl eq_refl Hs2 Hw) as (_ & Hc & _).
  rewrite Hc. cbn [FS.set_content FS.content].
  now rewrite universal_newlines_idem.
Qed.

End Controllers2.

(* ================================================================== *)
(** * Beyond the claims: the revert tool *)

Section Tool.
  Import Str.

(** X9.  The revert tool makes no backup.  Called with a name that is no
    file it shows the error and changes nothing at all.  Called with
    another file than the script, readable and decodable, and a script
    that is there and writable, it shows the success message, the script
    holds the text of that file, no file has appeared or gone, and every
    other file is as it was. *)
Theorem revert_backup_only_rewrites_script (fs : FS.t) (now : instant)
  (backup_filename : string) :
  (FS.lookup fs backup_filename = None ->
   RevertTool.revert_backup fs now backup_filename
   = (fs, ErrorShown FS.FileNotFoundError))
  /\ forall fb fscript,
       backup_filename <> "adaptcalc.py" ->
       FS.lookup fs backup_filename = Some fb ->
       FS.readable fb = true -> FS.decodable fb = true ->
       FS.lookup fs "adaptcalc.py" = Some fscript -> FS.writable fscript = true ->
       snd (RevertTool.revert_backup fs now backup_filename) = Done
       /\ content_at (fst (RevertTool.revert_backup fs now backup_filename))
            "adaptcalc.py"
          = Some (universal_newlines (FS.content fb))
       /\ map fst (FS.entries (fst (RevertTool.revert_backup fs now backup_filename)))
          = map fst (FS.entries fs)
       /\ forall q, q <> "adaptcalc.py" ->
            FS.lookup (fst (RevertTool.revert_backup fs now backup_filename)) q
            = FS.lookup fs q.
Proof.
  unfold RevertTool.revert_backup.
  change (RevertTool.get_script_name ++ ".py") with "adaptcalc.py".
  split.
  - intros H. unfold FS.copy_text, FS.open_r. now rewrite H.
  - intros fb fscript Hne Hb Hr Hd Hs Hw.
    rewrite (copy_text_existing fs (stamp now) backup_filename "adaptcalc.py"
               fb fscript Hne Hb Hr Hd Hs Hw).
    cbn [fst snd FS.entries]. split; [reflexivity|]. split; [|split].
    + unfold content_at. now rewrite (lookup_updated _ _ _ _ Hs).
    + apply map_fst_update.
    + intros q Hq. now apply lookup_updated_other.
Qed.

End Tool.

(* ================================================================== *)
(** * Beyond the claims: the file of the API key *)

Section KeyFile.
  Import Str.

Lemma load_api_key_of_file (fs : FS.t) (h : FS.file) :
  FS.lookup fs AdaptCalc.API_KEY_FILENAME = Some h ->
  FS.readable h = true -> FS.decodable h = true ->
  AdaptCalc.load_api_key fs = strip (universal_newlines (FS.content h)).
Proof.
  intros Hh Hr Hd.
  unfold AdaptCalc.load_api_key, FS.exists_, FS.open_r, FS.read.
  now rewrite Hh, Hr, Hd.
Qed.

(** What [load_api_key] returns after a [save_api_key] that raised
    nothing, when the key file was absent or readable before. *)
Lemma load_after_save (fs : FS.t) (now : instant) (key : string) :
  snd (AdaptCalc.save_api_key fs now key) = None ->
  (forall f, FS.lookup fs AdaptCalc.API_KEY_FILENAME = Some f ->
             FS.readable f = true) ->
  AdaptCalc.load_api_key (fst (AdaptCalc.save_api_key fs now key))
  = strip (universal_newlines (strip key)).
Proof.
  unfold AdaptCalc.save_api_key. intros Hok Hread.
  destruct (FS.lookup fs AdaptCalc.API_KEY_FILENAME) as [f|] eqn:Hf.
  - destruct (FS.writable f) eqn:Hw.
    + rewrite (write_text_existing _ _ _ _ _ Hf Hw) in *. cbn [fst].
      rewrite (load_api_key_of_file _ _ (lookup_updated _ _ _ _ Hf));
        [reflexivity | exact (Hread f eq_refl) | reflexivity].
    + rewrite (write_text_readonly _ _ _ _ _ Hf Hw) in Hok. discriminate.
  - rewrite (write_text_missing _ _ _ _ Hf) in *.
    destruct (FS.creatable fs); [|discriminate]. cbn [fst].
    rewrite (load_api_key_of_file _
               (FS.set_content (strip key) (stamp now) (FS.new_file (stamp now))));
      [reflexivity | | reflexivity | reflexivity].
    unfold FS.lookup in *. cbn [FS.entries]. rewrite assoc_app, Hf.
    reflexivity.
Qed.

(** X10.  The key file round trip: after [save_api_key] raised nothing
    (the key file was absent or readable before), [load_api_key] returns
    the key stripped of surrounding white space; for a key without
    carriage returns that is exactly what was written.  And what
    [load_api_key] returns is always stripped, and is empty when there is
    no key file. *)
Theorem save_then_load_api_key (fs : FS.t) (now : instant) (key : string) :
  snd (AdaptCalc.save_api_key fs now key) = None ->
  (forall f, FS.lookup fs AdaptCalc.API_KEY_FILENAME = Some f ->
             FS.readable f = true) ->
  AdaptCalc.load_api_key (fst (AdaptCalc.save_api_key fs now key))
  = strip (universal_newlines (strip key))
  /\ (mem CR key = false ->
      AdaptCalc.load_api_key (fst (AdaptCalc.save_api_key fs now key))
      = strip key)
  /\ strip (AdaptCalc.load_api_key (fst (AdaptCalc.save_api_key fs now key)))
     = AdaptCalc.load_api_key (fst (AdaptCalc.save_api_key fs now key)).
Proof.
  intros Hok Hread. rewrite (load_after_save _ _ _ Hok Hread).
  split; [reflexivity|]. split; [|apply strip_idem].
  intros Hcr. now rewrite (universal_newlines_id _ (mem_strip _ _ Hcr)), strip_idem.
Qed.

(** X11.  A key the dialog accepted is not empty and has no white space
    around it, as is the prompt; saved, it is the key that the next run
    loads (a key line holds no carriage return). *)
Theorem accepted_key_is_loaded_back (fs : FS.t) (now : instant)
  (edit_prompt edit_key combo_model prompt_text api_key selected_model : string) :
  AdaptCalc.on_accept edit_prompt edit_key combo_model
  = AdaptCalc.Accepted prompt_text api_key selected_model ->
  mem CR edit_key = false ->
  snd (AdaptCalc.save_api_key fs now api_key) = None ->
  (forall f, FS.lookup fs AdaptCalc.API_KEY_FILENAME = Some f ->
             FS.readable f = true) ->
  prompt_text = strip edit_prompt /\ prompt_text <> EmptyString
  /\ api_key = strip edit_key /\ api_key <> EmptyString
  /\ AdaptCalc.load_api_key (fst (AdaptCalc.save_api_key fs now api_key)) = api_key.
Proof.
  unfold AdaptCalc.on_accept. intros Hacc Hcr Hok Hread.
  destruct (strip edit_prompt) as [|a p] eqn:Ep; [discriminate|].
  destruct (strip edit_key) as [|c k] eqn:Ek; [discriminate|].
  injection Hacc as <- <- <-.
  split; [reflexivity|]. split; [discriminate|].
  split; [reflexivity|]. split; [discriminate|].
  rewrite (load_after_save _ _ _ Hok Hread), <- Ek, strip_idem.
  now rewrite (universal_newlines_id _ (mem_strip _ _ Hcr)), strip_idem.
Qed.

Lemma insert_by_key_ext (key key' : string -> Z) (x : string) (l : list string) :
  key x = key' x -> (forall y, In y l -> key y = key' y) ->
  insert_by_key key x l = insert_by_key key' x l.
Proof.
  intros Hx. induction l as [|y l IH]; intros Hl; simpl; [reflexivity|].
  rewrite Hx, (Hl y (or_introl eq_refl)).
  destruct (key' x <=? key' y)%Z; [reflexivity|].
  f_equal. apply IH. intros z Hz. apply Hl. now right.
Qed.

Lemma sort_by_key_ext (key key' : string -> Z) (l : list string) :
  (forall y, In y l -> key y = key' y) ->
  sort_by_key key l = sort_by_key key' l.
Proof.
  induction l as [|x l IH]; intros Hl; simpl; [reflexivity|].
  rewrite IH by (intros y Hy; apply Hl; now right).
  apply insert_by_key_ext; [apply Hl; now left|].
  intros y Hy. apply sort_by_key_in in Hy. apply Hl. now right.
Qed.

(** The key file is never taken for a backup. *)
Lemma key_file_not_matched (script_base : string) :
  AdaptCalc.is_match
    (Re.re_match (AdaptCalc.backup_pattern script_base) AdaptCalc.API_KEY_FILENAME)
  = false.
Proof.
  destruct (AdaptCalc.is_match _) eqn:E; [exfalso | reflexivity].
  apply backup_pattern_accepts in E as (f' & nl & Hf & Hc & [-> | ->]).
  - rewrite append_nil_r in Hf. subst f'.
    apply conforms_last_char in Hc. discriminate.
  - apply (f_equal last_char) in Hf. rewrite last_char_append in Hf; discriminate.
Qed.

Lemma listdir_save_api_key (script_base : string) (fs : FS.t) (now : instant)
  (key : string) :
  filter (fun f => AdaptCalc.is_match
            (Re.re_match (AdaptCalc.backup_pattern script_base) f))
    (FS.listdir (fst (AdaptCalc.save_api_key fs now key)))
  = filter (fun f => AdaptCalc.is_match
              (Re.re_match (AdaptCalc.backup_pattern script_base) f))
      (FS.listdir fs).
Proof.
  unfold AdaptCalc.save_api_key.
  destruct (FS.lookup fs AdaptCalc.API_KEY_FILENAME) as [f|] eqn:Hf.
  - destruct (FS.writable f) eqn:Hw.
    + rewrite (write_text_existing _ _ _ _ _ Hf Hw). cbn [fst].
      unfold FS.listdir. cbn [FS.entries]. now rewrite map_fst_update.
    + now rewrite (write_text_readonly _ _ _ _ _ Hf Hw).
  - rewrite (write_text_missing _ _ _ _ Hf).
    destruct (FS.creatable fs); [|reflexivity]. cbn [fst].
    unfold FS.listdir. cbn [FS.entries].
    rewrite map_app, !filter_app. cbn [map fst filter].
    change (negb (mem "/" AdaptCalc.API_KEY_FILENAME)) with true. cbn [filter].
    rewrite key_file_not_matched. now rewrite app_nil_r.
Qed.

(** X12.  Saving the API key disturbs neither the backups nor the
    script: the listing is the same list, every listed backup is the same
    file, the next version is the same, and a script that is not the key
    file itself is untouched. *)
Theorem save_api_key_keeps_backups (script_path : string) (fs : FS.t)
  (now : instant) (key : string) :
  Re.plain (AdaptCalc.get_script_name script_path) = true ->
  AdaptCalc.list_backup_files script_path (fst (AdaptCalc.save_api_key fs now key))
  = AdaptCalc.list_backup_files script_path fs
  /\ AdaptCalc.next_iteration script_path (fst (AdaptCalc.save_api_key fs now key))
     = AdaptCalc.next_iteration script_path fs
  /\ (forall b, In b (AdaptCalc.list_backup_files script_path fs) ->
        FS.lookup (fst (AdaptCalc.save_api_key fs now key)) b = FS.lookup fs b)
  /\ (script_path <> AdaptCalc.API_KEY_FILENAME ->
      FS.lookup (fst (AdaptCalc.save_api_key fs now key)) script_path
      = FS.lookup fs script_path).
Proof.
  intros _.
  assert (Hneq : forall b, In b (AdaptCalc.list_backup_files script_path fs) ->
                           b <> AdaptCalc.API_KEY_FILENAME).
  { intros b Hb ->. unfold AdaptCalc.list_backup_files in Hb.
    apply sort_by_key_in, filter_In in Hb as [_ Hb].
    now rewrite key_file_not_matched in Hb. }
  assert (Hframe : forall b, b <> AdaptCalc.API_KEY_FILENAME ->
            FS.lookup (fst (AdaptCalc.save_api_key fs now key)) b = FS.lookup fs b)
    by (intros b Hb; now apply write_text_frame).
  assert (Hlist : AdaptCalc.list_backup_files script_path
                    (fst (AdaptCalc.save_api_key fs now key))
                  = AdaptCalc.list_backup_files script_path fs).
  { unfold AdaptCalc.list_backup_files. rewrite listdir_save_api_key.
    apply sort_by_key_ext. intros b Hb. unfold FS.getmtime.
    rewrite Hframe; [reflexivity|].
    intros ->. apply filter_In in Hb as [_ Hb].
    now rewrite key_file_not_matched in Hb. }
  split; [assumption|]. split.
  - unfold AdaptCalc.next_iteration. now rewrite Hlist.
  - split; [intros b Hb; now apply Hframe, Hneq | apply Hframe].
Qed.

End KeyFile.

(* ================================================================== *)
(** * Beyond the claims: the pattern, and names read back *)

Section Language.
  Import Str.

(** X13.  What the filter of the listing lets through, for a base name
    without a character that [re] treats specially and among the names
    whose characters are code points below 256 (where [\d] is [0] to
    [9]): exactly the names of the shape of the naming scheme, and those
    names followed by one newline.  So every such name it lets through
    begins with the base name, ends in [k] or in a newline, and has no
    path separator in it when the base name has none. *)
Theorem backup_pattern_language (script_base f : string) :
  Re.plain script_base = true ->
  (AdaptCalc.is_match (Re.re_match (AdaptCalc.backup_pattern script_base) f) = true
   <-> accepted script_base f)
  /\ (AdaptCalc.is_match (Re.re_match (AdaptCalc.backup_pattern script_base) f)
      = true ->
      (exists r, f = script_base ++ String "_" r)
      /\ (last_char f = Some "k"%char \/ last_char f = Some LF)
      /\ (mem "/" script_base = false -> mem "/" f = false)).
Proof.
  intros _. split; [apply backup_pattern_accepts|].
  intros H. apply backup_pattern_accepts in H as (f' & nl & -> & Hc & Hnl).
  pose proof (conforms_last_char _ _ Hc) as Hlast.
  destruct Hc as (d & t & v & -> & _ & Hd & _ & Ht & _ & Hv).
  split; [|split].
  - exists (d ++ "_" ++ t ++ "_v" ++ v ++ ".bak" ++ nl).
    repeat (rewrite append_assoc; simpl). reflexivity.
  - destruct Hnl as [-> | ->].
    + left. now rewrite append_nil_r.
    + right. now rewrite last_char_append.
  - intros Hb. rewrite !mem_append, Hb.
    rewrite (digits_no_slash d Hd), (digits_no_slash t Ht), (digits_no_slash v Hv).
    destruct Hnl as [-> | ->]; reflexivity.
Qed.

(** X14.  For a base name without a character that [re] treats
    specially, the program reads back what it writes into a name: the
    name it generates at a four-digit year passes its own filter, has no
    path separator, and the search and [int] of its numbering loop find
    in it the very iteration that was printed. *)
Theorem generated_name_reads_back (script_path : string) (fs : FS.t)
  (now : instant) :
  Re.plain (AdaptCalc.get_script_name script_path) = true ->
  four_digit_year (wall now) = true ->
  AdaptCalc.is_match
    (Re.re_match
       (AdaptCalc.backup_pattern (AdaptCalc.get_script_name script_path))
       (AdaptCalc.get_next_backup_filename script_path fs now))
  = true
  /\ mem "/" (AdaptCalc.get_next_backup_filename script_path fs now) = false
  /\ Re.re_search AdaptCalc.version_pattern
       (AdaptCalc.get_next_backup_filename script_path fs now)
     = Some [of_int (AdaptCalc.next_iteration script_path fs)]
  /\ AdaptCalc.bump 0 (AdaptCalc.get_next_backup_filename script_path fs now)
     = AdaptCalc.next_iteration script_path fs.
Proof.
  intros _ Hy.
  assert (Hs : Re.re_search AdaptCalc.version_pattern
                 (AdaptCalc.get_next_backup_filename script_path fs now)
               = Some [of_int (AdaptCalc.next_iteration script_path fs)]).
  { unfold AdaptCalc.get_next_backup_filename.
    replace (AdaptCalc.get_script_name script_path ++ "_" ++ strftime (wall now)
             ++ "_v" ++ of_int (AdaptCalc.next_iteration script_path fs) ++ ".bak")
      with ((AdaptCalc.get_script_name script_path ++ "_" ++ strftime (wall now))
            ++ "_v" ++ of_int (AdaptCalc.next_iteration script_path fs)
            ++ ".bak" ++ "")
      by (repeat (rewrite append_assoc; simpl); reflexivity).
    apply search_version_field;
      [apply of_int_nonempty | apply of_int_all | now left]. }
  split; [apply backup_pattern_accepts; now apply backup_name_accepted|].
  split; [apply backup_name_no_slash|]. split; [assumption|].
  unfold AdaptCalc.bump. rewrite Hs, to_int_of_int.
  destruct (0 <? AdaptCalc.next_iteration script_path fs)%N eqn:E;
    [reflexivity|].
  apply N.ltb_ge in E. unfold AdaptCalc.next_iteration in *. lia.
Qed.

(** X15.  Customize with an answer that is not blank once sanitised
    writes the sanitised answer, and nothing else, into a script that can
    be written: what is then on disk holds no triple backtick and no
    white space around it, and what is shown depends on the restart
    alone. *)
Theorem customize_writes_sanitised_answer (script_path : string)
  (exec_ok : bool) (fs : FS.t) (now : instant) (raw_response : string)
  (f : FS.file) :
  Re.plain (AdaptCalc.get_script_name script_path) = true ->
  AdaptCalc.sanitize_script_response raw_response <> EmptyString ->
  FS.lookup fs script_path = Some f -> FS.writable f = true ->
  AdaptCalc.customize_entire_script script_path exec_ok fs now raw_response
  = AdaptCalc.overwrite_self script_path exec_ok fs now
      (AdaptCalc.sanitize_script_response raw_response)
  /\ content_at
       (fst (AdaptCalc.customize_entire_script script_path exec_ok fs now
               raw_response))
       script_path
     = Some (AdaptCalc.sanitize_script_response raw_response)
  /\ has_fence (AdaptCalc.sanitize_script_response raw_response) = false
  /\ snd (AdaptCalc.customize_entire_script script_path exec_ok fs now
            raw_response)
     = AdaptCalc.restart exec_ok.
Proof.
  intros _ Hne Hf Hw.
  assert (E : AdaptCalc.customize_entire_script script_path exec_ok fs now
                raw_response
              = AdaptCalc.overwrite_self script_path exec_ok fs now
                  (AdaptCalc.sanitize_script_response raw_response)).
  { unfold AdaptCalc.customize_entire_script.
    assert (Hs : strip (AdaptCalc.sanitize_script_response raw_response)
                 = AdaptCalc.sanitize_script_response raw_response)
      by apply strip_idem.
    rewrite Hs.
    now destruct (AdaptCalc.sanitize_script_response raw_response). }
  rewrite E. split; [reflexivity|].
  destruct (AdaptCalc.backup_script_custom script_path fs now script_path)
    as [[fs1 name] warning] eqn:Hbk.
  rewrite (overwrite_self_eq _ _ _ _ _ _ _ _ Hbk).
  assert (Hf1 : FS.lookup fs1 script_path = Some f)
    by now rewrite (backup_keeps_script _ _ _ _ _ _ Hbk).
  unfold AdaptCalc.overwrite_step.
  rewrite (write_text_existing _ _ _ _ _ Hf1 Hw). cbn [fst snd].
  split; [|split; [apply sanitize_script_response_clean_fence | reflexivity]].
  unfold content_at. now rewrite (lookup_updated _ _ _ _ Hf1).
Qed.

End Language.

(* ================================================================== *)
(** * Beyond the claims: listings of the tool, and a backup cut short *)

Section Edges.
  Import Str.

(** A copy that raises the decoding error has opened its destination. *)
Lemma copy_text_decode_error (fs : FS.t) (now : Z) (src dst : string) :
  snd (FS.copy_text fs now src dst) = Some FS.UnicodeDecodeError ->
  FS.open_w fs now dst = inr (fst (FS.copy_text fs now src dst)).
Proof.
  unfold FS.copy_text, FS.open_r.
  destruct (FS.lookup fs src) as [f|]; [|discriminate].
  destruct (FS.readable f); [|discriminate].
  destruct (FS.open_w fs now dst) as [e|fs1] eqn:Ho.
  - unfold FS.open_w in Ho. destruct (FS.lookup fs dst) as [g|].
    + destruct (FS.writable g); [discriminate|]. injection Ho as <-. discriminate.
    + destruct (FS.creatable fs); [discriminate|]. injection Ho as <-. discriminate.
  - destruct (FS.read fs1 src); cbn [fst snd]; [reflexivity | discriminate].
Qed.

(** X16.  The revert tool lists what the main program lists when the
    script of the main program is named [adaptcalc]; a name from the
    listing of the tool is a file on disk and is not the script, and the
    tool called with it never shows the not-found error. *)
Theorem revert_tool_listing_is_safe (fs : FS.t) (now : instant) (b : string) :
  In b (RevertTool.list_backup_files fs) ->
  (forall script_path,
     AdaptCalc.get_script_name script_path = "adaptcalc" ->
     RevertTool.list_backup_files fs = AdaptCalc.list_backup_files script_path fs)
  /\ b <> "adaptcalc.py"
  /\ (exists fb, FS.lookup fs b = Some fb)
  /\ snd (RevertTool.revert_backup fs now b) <> ErrorShown FS.FileNotFoundError.
Proof.
  intros Hin.
  change (In b (AdaptCalc.list_backup_files "adaptcalc.py" fs)) in Hin.
  pose proof (listed_neq_script "adaptcalc.py" fs b Hin) as Hne.
  destruct (listed_exists "adaptcalc.py" fs b Hin) as [fb Hb].
  split; [|split; [assumption|split; [now exists fb|]]].
  - intros script_path E. unfold RevertTool.list_backup_files,
      AdaptCalc.list_backup_files. now rewrite E.
  - unfold RevertTool.revert_backup.
    change (RevertTool.get_script_name ++ ".py") with "adaptcalc.py".
    pose proof (copy_text_found fs (stamp now) b "adaptcalc.py" fb Hne Hb) as Hf.
    destruct (FS.copy_text fs (stamp now) b "adaptcalc.py") as [fs2 [e|]];
      cbn [snd] in *; [|discriminate].
    intros H. injection H as ->. now apply Hf.
Qed.

(** X17.  For a base name without a character that [re] treats
    specially, and at a four-digit year, a backup cut short takes a
    version all the same.  When the script does not decode, the backup
    raises after it has created its file: the file is there, empty, under
    the new name, it is listed, and the next backup is numbered one
    higher. *)
Theorem undecodable_script_backup_takes_version (script_path : string)
  (fs fs1 : FS.t) (now : instant) (name : string) :
  Re.plain (AdaptCalc.get_script_name script_path) = true ->
  four_digit_year (wall now) = true ->
  AdaptCalc.backup_script_custom script_path fs now script_path
  = (fs1, name, Some FS.UnicodeDecodeError) ->
  content_at fs1 name = Some EmptyString
  /\ In name (AdaptCalc.list_backup_files script_path fs1)
  /\ AdaptCalc.next_iteration script_path fs1
     = (AdaptCalc.next_iteration script_path fs + 1)%N.
Proof.
  intros _ Hy Hbk.
  pose proof (backup_name_fresh script_path fs now Hy) as Hfresh.
  rewrite backup_script_custom_eq in Hbk. injection Hbk as Hfs Hname Hw.
  rewrite Hname in *.
  assert (E : fs1 = {| FS.entries :=
                         (FS.entries fs ++ [(name, FS.new_file (stamp now))])%list;
                       FS.creatable := FS.creatable fs |}).
  { pose proof (copy_text_decode_error _ _ _ _ Hw) as Ho. rewrite Hfs in Ho.
    unfold FS.open_w in Ho. rewrite Hfresh in Ho.
    destruct (FS.creatable fs); [|discriminate]. now injection Ho as <-. }
  assert (Hc : content_at fs1 name = Some EmptyString).
  { rewrite E. unfold content_at, FS.lookup in *. cbn [FS.entries].
    rewrite assoc_app, Hfresh. simpl. now rewrite String.eqb_refl. }
  assert (Hlist : forall f, In f (AdaptCalc.list_backup_files script_path fs1)
                    <-> f = name \/ In f (AdaptCalc.list_backup_files script_path fs)).
  { intros f. rewrite !in_list_backup_files, !in_listdir, E. cbn [FS.entries].
    rewrite map_app, in_app_iff. simpl. split.
    - intros [[[H | [H | []]] Hs] Ha]; [right | left]; auto.
    - intros [-> | [[H Hs] Ha]].
      + rewrite <- Hname. repeat split; [now right; left
          | apply backup_name_no_slash | now apply backup_name_accepted].
      + repeat split; auto. }
  split; [assumption|]. split; [apply Hlist; now left|].
  rewrite (next_iteration_max script_path fs1).
  rewrite (max_version_map_same_set NamingScheme.extractVersion _
             (name :: AdaptCalc.list_backup_files script_path fs))
    by (intros f; rewrite Hlist; simpl; intuition).
  cbn [map]. unfold NamingScheme.max_version at 1. cbn [fold_right].
  fold (NamingScheme.max_version
          (map NamingScheme.extractVersion
             (AdaptCalc.list_backup_files script_path fs))).
  rewrite <- Hname at 1. rewrite extractVersion_backup_name.
  rewrite (next_iteration_max script_path fs). lia.
Qed.

End Edges.

(* ================================================================== *)
(** * Beyond the claims: the theorems at concrete inputs *)

Lemma get_script_name_drops_directory_and_extension_witness :
  AdaptCalc.get_script_name "/home/user/adaptcalc.py" = "adaptcalc"
  /\ AdaptCalc.get_script_name "adaptcalc.py" = "adaptcalc".
Proof.
  destruct (get_script_name_drops_directory_and_extension
              "/home/user" "adaptcalc" "py" eq_refl eq_refl eq_refl)
    as (H1 & H2 & _).
  split; [exact H1 | exact H2].
Defined.

Lemma backup_adds_one_file_or_nothing_witness :
  FS.lookup Sample.fs_script "calc_20250306_153012_v1.bak" = None
  /\ exists f,
       FS.lookup Sample.fs_script "calc.py" = Some f
       /\ FS.lookup
            (fst (fst (AdaptCalc.backup_script_custom "calc.py" Sample.fs_script
                         Sample.now0 "calc.py")))
            "calc_20250306_153012_v1.bak"
          = Some (FS.set_content (Str.universal_newlines (FS.content f))
                    (stamp Sample.now0) (FS.new_file (stamp Sample.now0)))
       /\ Permutation
            (FS.entries
               (fst (fst (AdaptCalc.backup_script_custom "calc.py"
                            Sample.fs_script Sample.now0 "calc.py"))))
            (("calc_20250306_153012_v1.bak",
              FS.set_content (Str.universal_newlines (FS.content f))
                (stamp Sample.now0) (FS.new_file (stamp Sample.now0)))
             :: FS.entries Sample.fs_script).
Proof.
  destruct (backup_adds_one_file_or_nothing "calc.py" Sample.fs_script
              (fst (fst (AdaptCalc.backup_script_custom "calc.py"
                           Sample.fs_script Sample.now0 "calc.py")))
              Sample.now0 "calc_20250306_153012_v1.bak" None
              eq_refl eq_refl eq_refl)
    as (H1 & _ & H2).
  split; [exact H1 | exact H2].
Defined.

Lemma listed_backups_survive_witness :
  In "calc_20250101_100000_v1.bak"
    (AdaptCalc.list_backup_files "calc.py"
       (fst (AdaptCalc.overwrite_self "calc.py" true Sample.fs_two Sample.now0
               "new")))
  /\ FS.lookup
       (fst (AdaptCalc.overwrite_self "calc.py" true Sample.fs_two Sample.now0
               "new"))
       "calc_20250101_100000_v1.bak"
     = FS.lookup Sample.fs_two "calc_20250101_100000_v1.bak".
Proof.
  destruct (listed_backups_survive "calc.py" true Sample.fs_two Sample.now0
              "new" "calc_20250101_100000_v1.bak")
    as ((H1 & H2 & _) & _);
    [vm_compute; reflexivity | vm_compute; tauto |].
  split; [exact H1 | exact H2].
Defined.

Lemma revert_to_listed_backup_witness :
  content_at
    (fst (AdaptCalc.revert_to_backup "calc.py" true Sample.fs_two Sample.now0
            "calc_20250101_100000_v1.bak"))
    "calc.py"
  = Some "first"
  /\ snd (AdaptCalc.revert_to_backup "calc.py" true Sample.fs_two Sample.now0
            "calc_20250101_100000_v1.bak")
     = Restarted.
Proof.
  destruct (revert_to_listed_backup "calc.py" true Sample.fs_two Sample.now0
              "calc_20250101_100000_v1.bak")
    as (_ & H); [vm_compute; reflexivity | vm_compute; tauto |].
  destruct (H (Sample.file_of "first" 5) (Sample.file_of "old" 1)
              eq_refl eq_refl eq_refl eq_refl eq_refl) as (H1 & H2 & _).
  split; [exact H2 | exact H1].
Defined.

Lemma overwrite_self_outcome_witness :
  snd (AdaptCalc.overwrite_self "calc.py" false Sample.fs_script Sample.now0 "new")
  = ErrorShown FS.ExecError
  /\ content_at
       (fst (AdaptCalc.overwrite_self "calc.py" false Sample.fs_script
               Sample.now0 "new"))
       "calc.py"
     = Some "new".
Proof.
  refine (proj1 (overwrite_self_outcome "calc.py" false Sample.fs_script
                   Sample.now0 "new" (Sample.file_of "old" 1) _ _) _);
    vm_compute; reflexivity.
Defined.

Lemma revert_to_script_itself_empties_it_witness :
  content_at
    (fst (AdaptCalc.revert_to_backup "calc.py" true Sample.fs_script Sample.now0
            "calc.py"))
    "calc.py"
  = Some ""
  /\ snd (AdaptCalc.revert_to_backup "calc.py" true Sample.fs_script Sample.now0
            "calc.py")
     = Restarted.
Proof.
  refine (revert_to_script_itself_empties_it "calc.py" true Sample.fs_script
            Sample.now0 (Sample.file_of "old" 1) _ _ _ _);
    vm_compute; reflexivity.
Defined.

Lemma replace_then_revert_restores_witness :
  content_at
    (fst (AdaptCalc.revert_to_backup "calc.py" true
            (fst (AdaptCalc.overwrite_self "calc.py" true Sample.fs_script
                    Sample.now0 "new"))
            Sample.later "calc_20250306_153012_v1.bak"))
    "calc.py"
  = Some "old".
Proof.
  refine (proj2 (proj2
    (replace_then_revert_restores "calc.py" true Sample.fs_script
       (fst (fst (AdaptCalc.backup_script_custom "calc.py" Sample.fs_script
                    Sample.now0 "calc.py")))
       Sample.now0 "calc_20250306_153012_v1.bak" "new" (Sample.file_of "old" 1)
       _ _ _ _ _)) true Sample.later);
    vm_compute; reflexivity.
Defined.

Lemma save_then_load_api_key_witness :
  AdaptCalc.load_api_key
    (fst (AdaptCalc.save_api_key Sample.fs_script Sample.now0 "  sk-abc  "))
  = "sk-abc".
Proof.
  refine (proj1 (proj2 (save_then_load_api_key Sample.fs_script Sample.now0
                          "  sk-abc  " _ _)) _).
  - vm_compute. reflexivity.
  - intros f H. vm_compute in H. discriminate H.
  - vm_compute. reflexivity.
Defined.

Lemma accepted_key_is_loaded_back_witness :
  AdaptCalc.load_api_key
    (fst (AdaptCalc.save_api_key Sample.fs_script Sample.now0 "sk-abc"))
  = "sk-abc".
Proof.
  refine (proj2 (proj2 (proj2 (proj2
    (accepted_key_is_loaded_back Sample.fs_script Sample.now0
       " add a sine key " " sk-abc " "gpt-4o" "add a sine key" "sk-abc" "gpt-4o"
       _ _ _ _))))).
  - vm_compute. reflexivity.
  - vm_compute. reflexivity.
  - vm_compute. reflexivity.
  - intros f H. vm_compute in H. discriminate H.
Defined.

Lemma save_api_key_keeps_backups_witness :
  AdaptCalc.list_backup_files "calc.py"
    (fst (AdaptCalc.save_api_key Sample.fs_two Sample.now0 "sk-abc"))
  = AdaptCalc.list_backup_files "calc.py" Sample.fs_two.
Proof.
  refine (proj1 (save_api_key_keeps_backups "calc.py" Sample.fs_two Sample.now0
                   "sk-abc" _)).
  vm_compute. reflexivity.
Defined.

Lemma backup_pattern_language_witness :
  accepted "calc" "calc_20250101_100000_v1.bak".
Proof.
  refine (proj1 (proj1 (backup_pattern_language "calc"
                          "calc_20250101_100000_v1.bak" _)) _);
    vm_compute; reflexivity.
Defined.

Lemma generated_name_reads_back_witness :
  Re.re_search AdaptCalc.version_pattern
    (AdaptCalc.get_next_backup_filename "calc.py" Sample.fs_two Sample.now0)
  = Some [Str.of_int (AdaptCalc.next_iteration "calc.py" Sample.fs_two)].
Proof.
  refine (proj1 (proj2 (proj2
    (generated_name_reads_back "calc.py" Sample.fs_two Sample.now0 _ _))));
    vm_compute; reflexivity.
Defined.

Lemma customize_writes_sanitised_answer_witness :
  content_at
    (fst (AdaptCalc.customize_entire_script "calc.py" true Sample.fs_script
            Sample.now0 "```print(1)```"))
    "calc.py"
  = Some (AdaptCalc.sanitize_script_response "```print(1)```").
Proof.
  refine (proj1 (proj2
    (customize_writes_sanitised_answer "calc.py" true Sample.fs_script
       Sample.now0 "```print(1)```" (Sample.file_of "old" 1) _ _ _ _)));
    try (vm_compute; reflexivity).
  vm_compute. discriminate.
Defined.

Lemma revert_tool_listing_is_safe_witness :
  "adaptcalc_20250101_100000_v1.bak" <> "adaptcalc.py"
  /\ exists fb,
       FS.lookup Sample.fs_tool "adaptcalc_20250101_100000_v1.bak" = Some fb.
Proof.
  destruct (revert_tool_listing_is_safe Sample.fs_tool Sample.now0
              "adaptcalc_20250101_100000_v1.bak")
    as (_ & H1 & H2 & _); [vm_compute; tauto|].
  split; [exact H1 | exact H2].
Defined.

Lemma undecodable_script_backup_takes_version_witness :
  AdaptCalc.next_iteration "calc.py"
    (fst (fst (AdaptCalc.backup_script_custom "calc.py"
                 {| FS.entries :=
                      [("calc.py",
                        {| FS.content := "old"; FS.mtime := 1;
                           FS.readable := true; FS.decodable := false;
                           FS.writable := true |})];
                    FS.creatable := true |}
                 Sample.now0 "calc.py")))
  = (AdaptCalc.next_iteration "calc.py"
       {| FS.entries :=
            [("calc.py",
              {| FS.content := "old"; FS.mtime := 1;
                 FS.readable := true; FS.decodable := false;
                 FS.writable := true |})];
          FS.creatable := true |}
     + 1)%N.
Proof.
  refine (proj2 (proj2
    (undecodable_script_backup_takes_version "calc.py" _ _ Sample.now0
       "calc_20250306_153012_v1.bak" _ _ _)));
    vm_compute; reflexivity.
Defined.
